(** * NoBBQ spreadsheet tools: a shallow embedding of the row pipelines

    The repository is a set of stand-alone Python scripts that read a
    spreadsheet, send column A row by row (or in batches) to a remote model
    and write the answers into column B.  This development embeds

    - [tools/Automated scoring/excel_classify_to_openai.py] (module [Batch]),
    - [tools/API calls to get responses/excel_prompts_to_answers_gemini.py]
      (module [Gemini]),
    - [tools/excel_classify_to_openai.py] (module [Single]),

    and states the properties of the specification over them.

    Conventions.  A Python [str] is a [string] whose characters are the code
    points 0..255; the character classes below are those of Python 3 on that
    range, and every statement about texts is a statement about texts of
    these characters.  (Beyond them [re.IGNORECASE] also lets U+017F stand
    for [s] and U+0130, U+0131 for [i], and [\d] matches further decimal
    digits.)  Python floats (sleep durations) are exact rationals.  Console
    output is not modelled. *)

From Stdlib Require Import ZArith QArith Qminmax Lia Ascii String DecimalString Sorted.
From Stdlib Require DecimalNat DecimalFacts.
From stdpp Require Import list strings gmap.

Set Warnings "-clear-no-such-hyp".

Close Scope Q_scope.
Open Scope nat_scope.

(** ** Python text primitives *)

Module Py.

Definition code (c : ascii) : nat := nat_of_ascii c.

Definition between (lo hi : nat) (c : ascii) : bool :=
  (lo <=? code c) && (code c <=? hi).

(** [str.isspace] and the regex class [\s]. *)
Definition is_space (c : ascii) : bool :=
  between 9 13 c || between 28 32 c || (code c =? 133) || (code c =? 160).

(** The regex class [\d]. *)
Definition is_digit (c : ascii) : bool := between 48 57 c.

Definition is_ascii_alpha (c : ascii) : bool :=
  between 65 90 c || between 97 122 c.

(** The regex class [\w]: alphanumerics in the sense of [str.isalnum],
    and the underscore. *)
Definition is_word (c : ascii) : bool :=
  is_digit c || is_ascii_alpha c || (code c =? 95)
  || (code c =? 170) || (code c =? 178) || (code c =? 179) || (code c =? 181)
  || (code c =? 185) || (code c =? 186) || between 188 190 c
  || between 192 214 c || between 216 246 c || between 248 255 c.

(** Line boundaries of [str.splitlines]. *)
Definition is_linebreak (c : ascii) : bool :=
  between 10 13 c || between 28 30 c || (code c =? 133).

(** [str.lower] on one character. *)
Definition lower_char (c : ascii) : ascii :=
  if between 65 90 c || between 192 214 c || between 216 222 c
  then ascii_of_nat (code c + 32) else c.

Fixpoint lower (s : string) : string :=
  match s with
  | EmptyString => EmptyString
  | String c r => String (lower_char c) (lower r)
  end.

(** Case-insensitive comparison of a text character with a lowercase ASCII
    pattern character, as done by [re.IGNORECASE] on the characters
    0..255. *)
Definition ci_eq (p c : ascii) : bool := Ascii.eqb p (lower_char c).

Fixpoint lstrip (s : string) : string :=
  match s with
  | EmptyString => EmptyString
  | String c r => if is_space c then lstrip r else s
  end.

Fixpoint rstrip (s : string) : string :=
  match s with
  | EmptyString => EmptyString
  | String c r =>
      match rstrip r with
      | EmptyString => if is_space c then EmptyString else String c EmptyString
      | r' => String c r'
      end
  end.

(** [str.strip()] *)
Definition strip (s : string) : string := rstrip (lstrip s).

(** Truth value of a string: non-empty. *)
Definition truthy (s : string) : bool :=
  match s with EmptyString => false | _ => true end.

(** [s.startswith(p)], returning the remainder. *)
Fixpoint drop_prefix (p s : string) : option string :=
  match p, s with
  | EmptyString, _ => Some s
  | String a p', String b s' => if Ascii.eqb a b then drop_prefix p' s' else None
  | String _ _, EmptyString => None
  end.

(** [p in s] *)
Fixpoint contains (p s : string) : bool :=
  match drop_prefix p s with
  | Some _ => true
  | None => match s with
            | EmptyString => false
            | String _ r => contains p r
            end
  end.

(** [s.replace(old, new)] for a non-empty [old]: every non-overlapping
    occurrence, left to right.  The first argument bounds the number of
    characters still to be examined. *)
Fixpoint replace_fuel (n : nat) (old new s : string) : string :=
  match n with
  | O => s
  | S n' =>
      match drop_prefix old s with
      | Some rest => new +:+ replace_fuel n' old new rest
      | None => match s with
                | EmptyString => EmptyString
                | String c r => String c (replace_fuel n' old new r)
                end
      end
  end.

Definition replace (old new s : string) : string :=
  replace_fuel (S (String.length s)) old new s.

(** [sep.join(xs)] *)
Fixpoint join (sep : string) (xs : list string) : string :=
  match xs with
  | [] => EmptyString
  | [x] => x
  | x :: r => x +:+ sep +:+ join sep r
  end.

(** [s.splitlines()]: [cur] is the line being read, reversed. *)
Definition rev_string (cs : list ascii) : string :=
  string_of_list_ascii (rev cs).

Fixpoint splitlines_go (cur : list ascii) (s : string) : list string :=
  match s with
  | EmptyString => match cur with [] => [] | _ => [rev_string cur] end
  | String c r =>
      if is_linebreak c then
        match r with
        | String c2 r2 =>
            if (code c =? 13) && (code c2 =? 10)
            then rev_string cur :: splitlines_go [] r2
            else rev_string cur :: splitlines_go [] r
        | EmptyString => [rev_string cur]
        end
      else splitlines_go (c :: cur) r
  end.

Definition splitlines (s : string) : list string := splitlines_go [] s.

(** [str(n)] on a natural; the scripts apply it to row indices. *)
Definition str_of_nat (n : nat) : string :=
  NilEmpty.string_of_uint (Nat.to_uint n).

(** [int(s)] on a non-empty string of decimal digits, as matched by [\d+].
    CPython (3.11, and the security releases of older versions) refuses a
    string of more than 4300 digits, leading zeros included, with a
    ValueError ([sys.get_int_max_str_digits()]); [None] stands for that
    error and [int_limit_message] is its text. *)
Definition digit_val (c : ascii) : nat := code c - 48.

Fixpoint int_go (acc : nat) (s : string) : nat :=
  match s with
  | EmptyString => acc
  | String c r => int_go (10 * acc + digit_val c) r
  end.

Definition int_max_str_digits : Z := 4300.

Definition int (s : string) : option nat :=
  if (int_max_str_digits <? Z.of_nat (String.length s))%Z then None
  else Some (int_go 0 s).

Definition int_limit_message (digits : nat) : string :=
  "Exceeds the limit (4300 digits) for integer string conversion: value has "
  +:+ str_of_nat digits
  +:+ " digits; use sys.set_int_max_str_digits() to increase the limit".

(** Longest prefix of characters in a class, and the rest. *)
Fixpoint span (p : ascii -> bool) (s : string) : string * string :=
  match s with
  | EmptyString => (EmptyString, EmptyString)
  | String c r =>
      if p c then let '(a, b) := span p r in (String c a, b)
      else (EmptyString, s)
  end.

End Py.

(** ** The two regular expressions of the classifier scripts *)

Module Re.
Import Py.

(** [ans\d+] (ignoring case) at the head of [s]: the token and what follows. *)
Definition ans_digits (s : string) : option (string * string) :=
  match s with
  | String a (String n (String z r)) =>
      if ci_eq "a" a && ci_eq "n" n && ci_eq "s" z then
        match span is_digit r with
        | (EmptyString, _) => None
        | (ds, rest) => Some (String a (String n (String z ds)), rest)
        end
      else None
  | _ => None
  end.

(** [\b] between a word character on the left and [rest] on the right. *)
Definition boundary_after (rest : string) : bool :=
  match rest with
  | EmptyString => true
  | String c _ => negb (is_word c)
  end.

(** [\b] between [prev] on the left and a word character on the right. *)
Definition boundary_before (prev : option ascii) : bool :=
  match prev with
  | None => true
  | Some c => negb (is_word c)
  end.

(** [LABEL_RE = \bans\d+\b], IGNORECASE, tried at one position. *)
Definition label_at (prev : option ascii) (s : string) : option (string * string) :=
  if boundary_before prev then
    match ans_digits s with
    | Some (tok, rest) => if boundary_after rest then Some (tok, rest) else None
    | None => None
    end
  else None.

(** [LABEL_RE.findall(s)]: leftmost non-overlapping matches.  [skip] counts
    the characters of the current match that are still to be passed. *)
Fixpoint findall_go (skip : nat) (prev : option ascii) (s : string) : list string :=
  match s with
  | EmptyString => []
  | String c r =>
      match skip with
      | S k => findall_go k (Some c) r
      | O =>
          match label_at prev s with
          | Some (tok, _) => tok :: findall_go (String.length tok - 1) (Some c) r
          | None => findall_go 0 (Some c) r
          end
      end
  end.

Definition findall (s : string) : list string := findall_go 0 None s.

(** [LABEL_RE.search(s)]: the leftmost match, as [m.group(0)]. *)
Fixpoint search_go (prev : option ascii) (s : string) : option string :=
  match s with
  | EmptyString => None
  | String c r =>
      match label_at prev s with
      | Some (tok, _) => Some tok
      | None => search_go (Some c) r
      end
  end.

Definition search (s : string) : option string := search_go None s.

Fixpoint last_char (s : string) : option ascii :=
  match s with
  | EmptyString => None
  | String c EmptyString => Some c
  | String _ r => last_char r
  end.

Definition all_space (s : string) : bool :=
  match lstrip s with EmptyString => true | _ => false end.

(** [LINE_RE = ^\s*ID=(\d+)\s+(\bans\d+\b)\s*$], IGNORECASE, as used by
    [LINE_RE.match(line)]: the two groups. *)
Definition line_match (line : string) : option (string * string) :=
  match lstrip line with
  | String i (String d (String e r)) =>
      if ci_eq "i" i && ci_eq "d" d && Ascii.eqb e "=" then
        match span is_digit r with
        | (EmptyString, _) => None
        | (ds, r2) =>
            match span is_space r2 with
            | (EmptyString, _) => None
            | (ws, r3) =>
                match label_at (last_char ws) r3 with
                | Some (tok, r4) => if all_space r4 then Some (ds, tok) else None
                | None => None
                end
            end
        end
      else None
  | _ => None
  end.

End Re.

(** ** The spreadsheet held in memory *)

(** A cell read by pandas: missing ([NaN]) or a value, represented by the
    text [str(value)] that the scripts look at. *)
Inductive cell :=
| NaN
| Val (s : string).

(** The scripts only touch the first two columns. *)
Record row := { colA : cell; colB : cell }.

Abbreviation table := (list row).

(** [pd.isna(v) or not str(v).strip()] *)
Definition blank (c : cell) : bool :=
  match c with
  | NaN => true
  | Val s => negb (Py.truthy (Py.strip s))
  end.

Definition set_colB (v : string) (r : row) : row :=
  {| colA := colA r; colB := Val v |}.

(** [df.iat[i, 1] = v]; pandas raises IndexError outside the frame. *)
Definition iat_set (i : nat) (v : string) (df : table) : option table :=
  if i <? length df then Some (alter (set_colB v) i df) else None.

(** [df.iat[i, 1]] for a row of the frame. *)
Definition iat_B (df : table) (i : nat) : cell :=
  match df !! i with
  | Some r => colB r
  | None => NaN
  end.

(** ** Exceptions, the remote services and the effects of a run *)

Inductive exn :=
| Exception (msg : string)            (* an [Exception]; [str(e)] is [msg] *)
| TransientOpenAIError (msg : string) (* the class declared by the single-row classifier *)
| KeyboardInterrupt.                  (* not an [Exception] *)

(** Whether [except Exception] catches [e], and [str(e)]. *)
Definition is_Exception (e : exn) : bool :=
  match e with
  | KeyboardInterrupt => false
  | _ => true
  end.

Definition str_exn (e : exn) : string :=
  match e with
  | Exception m => m
  | TransientOpenAIError m => m
  | KeyboardInterrupt => ""
  end.

(** The observable effects: requests sent to the remote service and
    blocking sleeps. *)
Inductive event :=
| Call (model prompt : string)
| Sleep (seconds : Q).

Definition is_call (e : event) : bool :=
  match e with Call _ _ => true | Sleep _ => false end.

Definition calls (t : list event) : list event := filter (fun e => is_call e = true) t.

Inductive outcome (A : Type) :=
| Return (a : A)
| Raise (e : exn).
Arguments Return {A} a.
Arguments Raise {A} e.

Section Effects.
Context {World : Type}.

(** The state of a run: the outside world and the effects so far (most
    recent last). *)
Record state := { world : World; trace : list event }.

Definition M (A : Type) : Type := state -> outcome A * state.

Definition ret {A} (a : A) : M A := fun st => (Return a, st).

Definition raise {A} (e : exn) : M A := fun st => (Raise e, st).

Definition bind {A B} (m : M A) (k : A -> M B) : M B :=
  fun st =>
    match m st with
    | (Return a, st') => k a st'
    | (Raise e, st') => (Raise e, st')
    end.

(** [try: m except Exception as e: h(e)] *)
Definition try_except {A} (m : M A) (h : exn -> M A) : M A :=
  fun st =>
    match m st with
    | (Raise e, st') => if is_Exception e then h e st' else (Raise e, st')
    | r => r
    end.

Definition emit (e : event) : M unit :=
  fun st => (Return tt, {| world := world st; trace := trace st ++ [e] |}).

(** [time.sleep(d)]; a negative duration is a ValueError. *)
Definition sleep (d : Q) : M unit :=
  if Qle_bool 0 d then emit (Sleep d)
  else raise (Exception "sleep length must be non-negative").

(** A request to the remote service [f]: logged, then answered (or failed)
    by the world. *)
Definition request {R} (f : string -> string -> World -> outcome R * World)
    (model prompt : string) : M R :=
  fun st =>
    let '(r, w) := f model prompt (world st) in
    (r, {| world := w; trace := trace st ++ [Call model prompt] |}).

(** A computation without effects that returns or raises. *)
Definition lift {A} (r : outcome A) : M A := fun st => (r, st).

(** A loop [for x in xs: st = body(x, st)] over an accumulator. *)
Fixpoint for_each {A S} (body : A -> S -> M S) (xs : list A) (s : S) : M S :=
  match xs with
  | [] => ret s
  | x :: r => bind (body x s) (for_each body r)
  end.

End Effects.

Arguments state : clear implicits.
Arguments M : clear implicits.

Notation "x <- m ;; k" := (bind m (fun x => k))
  (at level 100, m at next level, right associativity).

(** ** Writing the workbook

    The three scripts end with
    [with pd.ExcelWriter(out_path, engine="openpyxl", mode="w") as writer:
       df.to_excel(writer, sheet_name=args.sheet if isinstance(args.sheet, str)
                   else writer.book.sheetnames[0], index=False)].
    The option [--sheet] is a string when it is given ([Some name]) and the
    integer 0 when it is not ([None]).  The book of a writer opened with
    [mode="w"] has no sheet yet, so in the second case [sheetnames[0]] is an
    IndexError and nothing is written.  In the first case the name is that
    of the sheet which [pd.read_excel] has read, and the frame is written
    under it. *)
Definition to_excel (sheet : option string) : outcome unit :=
  match sheet with
  | Some _ => Return tt
  | None => Raise (Exception "list index out of range")
  end.

(** ** Values of the OpenAI client shared by the classifier scripts *)

Module OpenAI.
Import Py.

(** A response object of [client.responses.create]: the [output_text]
    attribute ([None] when absent) and, per output item, its content parts
    with their [type] and [text] attributes. *)
Record content := { c_type : string; c_text : string }.

Record response := { output_text : option string; output : list (list content) }.

(** The parts kept by the scripts' fallback loop over [resp.output]. *)
Definition keep (c : content) : bool :=
  (String.eqb (c_type c) "output_text" || String.eqb (c_type c) "text")
  && truthy (c_text c).

Definition pieces (resp : response) : list string :=
  map c_text (filter (fun c => keep c = true) (concat (output resp))).

End OpenAI.

(** ** Python dictionaries with integer keys, in insertion order *)

Module Dict.

Definition t := list (nat * string).

Fixpoint get (k : nat) (d : t) : option string :=
  match d with
  | [] => None
  | (k', v) :: r => if k =? k' then Some v else get k r
  end.

Definition mem (k : nat) (d : t) : bool :=
  match get k d with Some _ => true | None => false end.

(** [d[k] = v]: an existing key keeps its place, a new key goes last. *)
Fixpoint set (k : nat) (v : string) (d : t) : t :=
  match d with
  | [] => [(k, v)]
  | (k', v') :: r => if k =? k' then (k, v) :: r else (k', v') :: set k v r
  end.

Definition keys (d : t) : list nat := map fst d.

End Dict.

(** ** Automated scoring/excel_classify_to_openai.py: batched classification *)

Module Batch.
Import Py.

Definition DEFAULT_MODEL : string := "gpt-4.1".
Definition DEFAULT_BATCH : Z := 10.

(** One iteration of the loop of [extract_labels] over the state
    [(seen, ordered)]. *)
Definition extract_step (st : gset string * list string) (lab : string)
    : gset string * list string :=
  let lab := lower lab in
  if decide (lab ∈ st.1) then st else ({[lab]} ∪ st.1, st.2 ++ [lab]).

Definition extract_labels (text : string) : list string :=
  let labels := Re.findall text in
  let ordered := (fold_left extract_step labels (∅, [])).2 in
  match ordered with
  | [] => ["ans0"; "ans1"; "ans2"]
  | _ => ordered
  end.

(** A task: row index, text, allowed labels. *)
Definition task : Type := nat * string * list string.

Definition ridx_of (t : task) : nat := t.1.1.

Definition nl : string := String (ascii_of_nat 10) "".
Definition chr (n : nat) : string := String (ascii_of_nat n) "".

Definition item_line (t : task) : string :=
  let '(ridx, text, labels) := t in
  "ID=" +:+ str_of_nat ridx +:+ " | Tillatte: " +:+ join ", " labels
  +:+ " | Tekst: " +:+ text.

Definition build_batch_prompt (items : list task) : string :=
  let header :=
    "Du er en streng klassifikator." +:+ nl
    +:+ "Oppgave: For hvert element skal du returnere KUN " +:+ chr 233
    +:+ "n etikett fra listen angitt." +:+ nl
    +:+ "Output-format: " +:+ chr 201 +:+ "N linje per element, n" +:+ chr 248
    +:+ "yaktig slik: 'ID=<id> <etikett>'" +:+ nl
    +:+ "Ingen ekstra tekst, ingen forklaring, ingen punktum." +:+ nl in
  let lines := (nl +:+ "ELEMENTER:") :: map item_line items in
  let footer :=
    nl +:+ "Returner n" +:+ chr 229 +:+ " kun resultatlinjene:" +:+ nl
    +:+ "Eksempel: ID=12 ans1" in
  header +:+ join nl lines +:+ footer.

(** One iteration of the loop of [parse_batch_output]; [int(m.group(1))]
    can raise. *)
Definition parse_line (results : Dict.t) (line : string) : outcome Dict.t :=
  match Re.line_match line with
  | Some (g1, g2) =>
      match int g1 with
      | Some ridx => Return (Dict.set ridx (lower g2) results)
      | None => Raise (Exception (int_limit_message (String.length g1)))
      end
  | None => Return results
  end.

Fixpoint parse_lines (lines : list string) (results : Dict.t) : outcome Dict.t :=
  match lines with
  | [] => Return results
  | line :: rest =>
      match parse_line results line with
      | Return results' => parse_lines rest results'
      | Raise e => Raise e
      end
  end.

Definition parse_batch_output (text : string) : outcome Dict.t :=
  parse_lines (splitlines text) [].

(** The prompt of the per-row fallback. *)
Definition single_prompt (text : string) (labels : list string) : string :=
  "Du er en streng klassifikator." +:+ nl
  +:+ "Returner KUN " +:+ chr 233 +:+ "n etikett, uten ekstra tekst." +:+ nl
  +:+ "Tillatte: " +:+ join ", " labels +:+ nl
  +:+ "Tekst:" +:+ nl +:+ text +:+ nl +:+ nl
  +:+ "Returner kun " +:+ chr 233 +:+ "n: " +:+ join ", " labels.

(** [m.group(0).lower() if m else out2.strip()] *)
Definition fallback_label (out2 : string) : string :=
  match Re.search out2 with
  | Some tok => lower tok
  | None => strip out2
  end.

(** [range(0, stop, step)]; a zero step is a ValueError. *)
Definition range0 (stop : nat) (step : Z) : option (list nat) :=
  match step with
  | Z0 => None
  | Zneg _ => Some []
  | Zpos p =>
      let k := Pos.to_nat p in
      Some (map (fun j => j * k) (seq 0 ((stop + k - 1) / k)))
  end.

(** [chunked(seq, size)], all chunks at once. *)
Definition chunked {A} (xs : list A) (size : Z) : option (list (list A)) :=
  match range0 (length xs) size with
  | None => None
  | Some starts => Some (map (fun i => take (Z.to_nat size) (drop i xs)) starts)
  end.

Definition cell_str (c : cell) : string :=
  match c with NaN => "nan" | Val s => s end.

(** The task-collection loop of the script, one row at a time. *)
Definition task_of (df : table) (idx : nat) (val : cell) : option task :=
  if blank val then None
  else if negb (blank (iat_B df idx)) then None
  else let text := strip (cell_str val) in
       Some (idx, text, extract_labels text).

Definition collect_tasks (df : table) : list task :=
  omap (fun p : nat * row => task_of df p.1 (colA p.2)) (imap pair df).

(** [excel_path.replace(".xlsx", "_with_results.xlsx")] *)
Definition out_path (excel_path : string) : string :=
  replace ".xlsx" "_with_results.xlsx" excel_path.

Section WithRemote.
Context {World : Type}.
(** [client.responses.create(model=..., input=...)] *)
Variable responses_create :
  string -> string -> World -> outcome OpenAI.response * World.

Definition call_openai (prompt model : string) : M World string :=
  resp <- request responses_create model prompt ;;
  let out :=
    match OpenAI.output_text resp with
    | Some o => if truthy o then o else strip (join "" (OpenAI.pieces resp))
    | None => strip (join "" (OpenAI.pieces resp))
    end in
  ret (strip out).

(** The body of the fallback loop for one task of the batch. *)
Definition fallback_one (model : string) (t : task) (parsed : Dict.t)
    : M World Dict.t :=
  let '(ridx, text, labels) := t in
  if Dict.mem ridx parsed then ret parsed
  else
    try_except
      (out2 <- call_openai (single_prompt text labels) model ;;
       ret (Dict.set ridx (fallback_label out2) parsed))
      (fun e => ret (Dict.set ridx ("ERROR: " +:+ str_exn e) parsed)).

Definition classify_batch (batch : list task) (model : string) : M World Dict.t :=
  out <- call_openai (build_batch_prompt batch) model ;;
  parsed <- lift (parse_batch_output out) ;;
  if forallb (fun t => Dict.mem (ridx_of t) parsed) batch then ret parsed
  else for_each (fallback_one model) batch parsed.

(** [for ridx, label in results.items(): df.iat[ridx, 1] = label] *)
Definition write_one (kv : nat * string) (df : table) : M World table :=
  match iat_set kv.1 kv.2 df with
  | Some df' => ret df'
  | None => raise (Exception "index is out of bounds")
  end.

Definition process_batch (model : string) (batch : list task) (df : table)
    : M World table :=
  results <- classify_batch batch model ;;
  df' <- for_each write_one results df ;;
  _ <- sleep (3 # 10) ;;
  ret df'.

(** The script from the loaded frame (column B present) to the saved
    file: its path and content.  An exception leaves nothing saved. *)
Definition main (excel_path : string) (sheet : option string) (model : string)
    (batch_size : Z) (df : table) : M World (string * table) :=
  match chunked (collect_tasks df) batch_size with
  | None => raise (Exception "range() arg 3 must not be zero")
  | Some batches =>
      df' <- for_each (process_batch model) batches df ;;
      _ <- lift (to_excel sheet) ;;
      ret (out_path excel_path, df')
  end.

End WithRemote.

End Batch.

(** ** API calls to get responses/excel_prompts_to_answers_gemini.py *)

Module Gemini.
Import Py.

Definition DEFAULT_MODEL : string := "gemini-2.5-flash".

(** A response of [model.generate_content]: the [text] attribute ([None]
    when absent) and, per candidate, the [text] of its content parts. *)
Record response := { text : option string; candidates : list (list string) }.

Definition parts (resp : response) : list string :=
  filter (fun t => truthy t = true) (concat (candidates resp)).

(** The two tests of the [except] branch, on the lowercased message. *)
Definition rate_limited (msg : string) : bool :=
  contains "429" msg || contains "rate" msg || contains "quota" msg
  || contains "resource exhausted" msg.

Definition safety_blocked (msg : string) : bool :=
  contains "safety" msg || contains "blocked" msg.

Definition too_many_retries : string := "ERROR: too many retries due to rate limits".

(** [min((2 ** attempt) + jitter, 30.0)] *)
Definition backoff (attempt : nat) (jitter : Q) : Q :=
  Qmin (inject_Z (2 ^ Z.of_nat attempt) + jitter)%Q 30.

(** How one pass through the loop body ends. *)
Inductive control :=
| Done (answer : string)
| Continue.

(** [excel_path.replace(".xlsx", "_with_answers.xlsx")] *)
Definition out_path (excel_path : string) : string :=
  replace ".xlsx" "_with_answers.xlsx" excel_path.

Definition cell_str (c : cell) : string :=
  match c with NaN => "nan" | Val s => s end.

(** Command-line options of the script. *)
Record args := {
  excel_path : string;
  sheet : option string;
  model : string;
  sleep_each : Q;
  pause_every : Z;
  pause_seconds : Q
}.

(** How the script ends: the path and the frame that the [finally] block
    hands to the writer, whether the workbook was written, and the
    exception, if any, that ends the process. *)
Record saved := {
  path : string;
  frame : table;
  written : bool;
  uncaught : option exn
}.

(** The [finally] block, entered with the frame [df] and the exception [e]
    that left the loop, if any.  An exception of the writer replaces [e]. *)
Definition finish (a : args) (df : table) (e : option exn) : saved :=
  match to_excel (sheet a) with
  | Return _ =>
      {| path := out_path (excel_path a); frame := df;
         written := true; uncaught := e |}
  | Raise e' =>
      {| path := out_path (excel_path a); frame := df;
         written := false; uncaught := Some e' |}
  end.

Section WithRemote.
Context {World : Type}.
(** [genai.GenerativeModel(model_name).generate_content(prompt)] *)
Variable generate_content :
  string -> string -> World -> outcome response * World.
(** [random.uniform(0.0, 1.0)] *)
Variable uniform : World -> Q * World.

Definition random_uniform : M World Q :=
  fun st =>
    let '(j, w) := uniform (world st) in
    (Return j, {| world := w; trace := trace st |}).

(** The [try] block of one attempt. *)
Definition generate (prompt model_name : string) : M World string :=
  resp <- request generate_content model_name prompt ;;
  let joined := strip (join "" (parts resp)) in
  let fallback := if truthy joined then joined else "(empty response)" in
  match text resp with
  | Some t => ret (if truthy t then strip t else fallback)
  | None => ret fallback
  end.

(** One pass through the body of the [for attempt] loop. *)
Definition attempt_once (prompt model_name : string) (attempt : nat)
    : M World control :=
  try_except
    (a <- generate prompt model_name ;; ret (Done a))
    (fun e =>
       let msg := lower (str_exn e) in
       if rate_limited msg then
         j <- random_uniform ;;
         _ <- sleep (backoff attempt j) ;;
         ret Continue
       else if safety_blocked msg then ret (Done "(blocked)")
       else raise e).

Fixpoint retry_loop (prompt model_name : string) (attempts : list nat)
    : M World string :=
  match attempts with
  | [] => ret too_many_retries
  | attempt :: rest =>
      c <- attempt_once prompt model_name attempt ;;
      match c with
      | Done a => ret a
      | Continue => retry_loop prompt model_name rest
      end
  end.

Definition call_gemini_safe (prompt model_name : string) (retries : Z)
    : M World string :=
  retry_loop prompt model_name (seq 0 (Z.to_nat retries)).

(** The pacing at the end of a processed row. *)
Definition pacing (a : args) (processed : Z) : M World unit :=
  _ <- sleep (if Qle_bool 0 (sleep_each a) then sleep_each a else 0) ;;
  if (0 <? pause_every a)%Z && (processed mod pause_every a =? 0)%Z
  then sleep (pause_seconds a)
  else ret tt.

(** The [for idx, val] loop: the frame when the loop is left and the
    exception leaving it, if any.  [KeyboardInterrupt] during the call
    breaks out of the loop. *)
Fixpoint rows_loop (a : args) (idxs : list nat) (df : table) (processed : Z)
    (st : state World) : (table * option exn) * state World :=
  match idxs with
  | [] => ((df, None), st)
  | idx :: rest =>
      let processed := (processed + 1)%Z in
      let val := match df !! idx with Some r => colA r | None => NaN end in
      if blank val then rows_loop a rest df processed st
      else if negb (blank (iat_B df idx)) then rows_loop a rest df processed st
      else
        let prompt := strip (cell_str val) in
        match call_gemini_safe prompt (model a) 6 st with
        | (Raise KeyboardInterrupt, st1) => ((df, None), st1)
        | (r, st1) =>
            let v :=
              match r with
              | Return answer => if truthy answer then answer else "(empty response)"
              | Raise e => "ERROR: " +:+ str_exn e
              end in
            let df1 := alter (set_colB v) idx df in
            match pacing a processed st1 with
            | (Return _, st2) => rows_loop a rest df1 processed st2
            | (Raise e, st2) => ((df1, Some e), st2)
            end
        end
  end.

(** The script from the loaded frame (column B present) on. *)
Definition main (a : args) (df : table) (st : state World)
    : saved * state World :=
  let '((df', e), st') := rows_loop a (seq 0 (length df)) df 0 st in
  (finish a df' e, st').

End WithRemote.

End Gemini.

(** ** tools/excel_classify_to_openai.py: one request per row *)

Module Single.
Import Py.

Definition nl : string := Batch.nl.
Definition chr : nat -> string := Batch.chr.

Definition extract_labels_from_text (text : string) : list string :=
  let labels := Re.findall text in
  let ordered := (fold_left Batch.extract_step labels (∅, [])).2 in
  if bool_decide (ordered = []) then ["ans0"; "ans1"; "ans2"] else ordered.

Definition build_prompt (row_text : string) (allowed_labels : list string) : string :=
  "Du er en streng klassifikator. "
  +:+ "Returner KUN " +:+ chr 233 +:+ "n etikett, n" +:+ chr 248
  +:+ "yaktig som skrevet, uten forklaring, uten ekstra tegn." +:+ nl +:+ nl
  +:+ "Velg hvilken av disse etikettene som passer best til teksten: "
  +:+ join ", " allowed_labels +:+ "." +:+ nl +:+ nl
  +:+ "Tekst:" +:+ nl +:+ row_text +:+ nl +:+ nl
  +:+ "Returner kun " +:+ chr 233 +:+ "n: " +:+ join ", " allowed_labels.

Definition transient_terms : list string :=
  ["rate limit"; "timeout"; "temporar"; "try again"; "overloaded"; "502"; "503"; "504"].

Definition is_transient (msg : string) : bool :=
  existsb (fun term => contains term msg) transient_terms.

(** [m.group(0).lower() if m else label.strip()] *)
Definition clean_label (label : string) : string :=
  match Re.search label with
  | Some tok => lower tok
  | None => strip label
  end.

Definition out_path (excel_path : string) : string :=
  replace ".xlsx" "_with_results.xlsx" excel_path.

Section WithRemote.
Context {World : Type}.
(** [client.responses.create(model=..., input=..., temperature=0)] *)
Variable responses_create :
  string -> string -> World -> outcome OpenAI.response * World.
(** The delay computed by tenacity's
    [wait_exponential(multiplier=1, min=1, max=20)] after the attempt of
    the given number (the library is not part of the repository). *)
Variable wait_exponential : nat -> Q.

(** The function under the decorator. *)
Definition strict_label_body (prompt model : string) : M World string :=
  try_except
    (resp <- request responses_create model prompt ;;
     let output_text :=
       match OpenAI.output_text resp with
       | Some o => if truthy o then o else strip (join "" (OpenAI.pieces resp))
       | None => strip (join "" (OpenAI.pieces resp))
       end in
     if truthy output_text then ret (strip output_text)
     else raise (Exception "Empty response from model"))
    (fun e =>
       let msg := lower (str_exn e) in
       if is_transient msg then raise (TransientOpenAIError (str_exn e))
       else raise e).

(** The decorator [@retry(reraise=True, stop=stop_after_attempt(5),
    wait=wait_exponential(...), retry=retry_if_exception_type(
    TransientOpenAIError))]: only a [TransientOpenAIError] is retried,
    [more] further attempts are allowed, and the last error is re-raised. *)
Fixpoint retrying (f : M World string) (attempt_number more : nat)
    : M World string :=
  fun st =>
    match f st with
    | (Raise (TransientOpenAIError m), st') =>
        match more with
        | O => (Raise (TransientOpenAIError m), st')
        | S k =>
            (_ <- emit (Sleep (wait_exponential attempt_number)) ;;
             retrying f (S attempt_number) k) st'
        end
    | r => r
    end.

Definition call_openai_strict_label (prompt model : string) : M World string :=
  retrying (strict_label_body prompt model) 1 4.

(** The body of the row loop of [main]. *)
Definition row_body (model : string) (idx : nat) (df : table) : M World table :=
  let val := match df !! idx with Some r => colA r | None => NaN end in
  if blank val then ret df
  else
    let row_text := strip (Batch.cell_str val) in
    let allowed := extract_labels_from_text row_text in
    let prompt := build_prompt row_text allowed in
    try_except
      (label <- call_openai_strict_label prompt model ;;
       ret (alter (set_colB (clean_label label)) idx df))
      (fun e =>
         let df' := alter (set_colB ("ERROR: " +:+ str_exn e)) idx df in
         _ <- sleep 1 ;;
         ret df').

Definition main (excel_path : string) (sheet : option string) (model : string)
    (df : table) : M World (string * table) :=
  df' <- for_each (row_body model) (seq 0 (length df)) df ;;
  _ <- lift (to_excel sheet) ;;
  ret (out_path excel_path, df').

End WithRemote.

End Single.

(** ** Scripted remote services, for concrete runs *)

Module Script.

(** A world that answers the successive requests from a list, whatever the
    prompt, and fails with a connection error once the list is used up. *)
Definition scripted {R} (model prompt : string) (w : list (outcome R))
    : outcome R * list (outcome R) :=
  match w with
  | [] => (Raise (Exception "connection closed"), [])
  | r :: rest => (r, rest)
  end.

(** A world scripted with texts ([inl]) and error messages ([inr]) only:
    it never raises anything but an [Exception]. *)
Definition polite (model prompt : string) (w : list (string + string))
    : outcome OpenAI.response * list (string + string) :=
  match w with
  | [] => (Raise (Exception "connection closed"), [])
  | inl s :: rest =>
      (Return {| OpenAI.output_text := Some s; OpenAI.output := [] |}, rest)
  | inr m :: rest => (Raise (Exception m), rest)
  end.

Definition start {W} (w : W) : state W := {| world := w; trace := [] |}.

Definition says (s : string) : outcome OpenAI.response :=
  Return {| OpenAI.output_text := Some s; OpenAI.output := [] |}.

Definition answers (s : string) : outcome Gemini.response :=
  Return {| Gemini.text := Some s; Gemini.candidates := [] |}.

End Script.

(** ** Definitions used to state the properties *)

Module Spec.
Import Py.

(** The distinct elements of a list in the order of their first
    occurrence. *)
Fixpoint first_seen (l : list string) : list string :=
  match l with
  | [] => []
  | x :: r => x :: filter (λ y, y ≠ x) (first_seen r)
  end.

(** The tokens of a text as the label extractor normalises them. *)
Definition tokens (text : string) : list string := map lower (Re.findall text).


(** The grammar [ID=<integer> <token>] of a response line, spelled out:
    optional blanks, [ID=] in any case, digits, at least one blank, a token
    ([ans] in any case followed by digits), optional blanks. *)
Fixpoint all_chars (p : ascii -> bool) (s : string) : bool :=
  match s with
  | EmptyString => true
  | String c r => p c && all_chars p r
  end.

(** [s] is empty or starts with a character outside the class [p]. *)
Definition starts_without (p : ascii -> bool) (s : string) : Prop :=
  match s with
  | EmptyString => True
  | String c _ => p c = false
  end.

Definition token (tok : string) : Prop :=
  ∃ a n z ds,
    tok = String a (String n (String z ds))
    ∧ lower (String a (String n (String z ""))) = "ans"
    ∧ ds ≠ "" ∧ all_chars is_digit ds = true.

Definition line_grammar (line ds tok : string) : Prop :=
  ∃ lead i d gap trail,
    line = lead +:+ String i (String d (String "=" (ds +:+ gap +:+ tok +:+ trail)))
    ∧ all_chars is_space lead = true
    ∧ lower (String i (String d "")) = "id"
    ∧ ds ≠ "" ∧ all_chars is_digit ds = true
    ∧ gap ≠ "" ∧ all_chars is_space gap = true
    ∧ token tok
    ∧ all_chars is_space trail = true.

(** The cleanup of a single-row response as the specification words it:
    the first token lowercased, or the trimmed text when there is none. *)
Definition cleaned (response : string) : string :=
  match head (Re.findall response) with
  | Some tok => lower tok
  | None => strip response
  end.

(** The integer that a string of digits writes. *)
Definition integer (ds : string) : nat := int_go 0 ds.

(** The digits are not more than [int()] accepts. *)
Definition within_limit (ds : string) : Prop :=
  (Z.of_nat (String.length ds) <= int_max_str_digits)%Z.

(** The two groups of each line that matches [LINE_RE], in line order. *)
Definition matched_groups (text : string) : list (string * string) :=
  omap Re.line_match (splitlines text).

(** What a line of a batch response contributes: the identifier and the
    lowercased label of a line that matches [LINE_RE]. *)
Definition parsed_pair (line : string) : option (nat * string) :=
  match Re.line_match line with
  | Some (g1, g2) => Some (integer g1, lower g2)
  | None => None
  end.

Definition matched_pairs (text : string) : list (nat * string) :=
  omap parsed_pair (splitlines text).

(** The response parser as the specification words it: it returns, and the
    result holds exactly the pairs of the matching lines. *)
Definition returns_exactly_matched_pairs (text : string) : Prop :=
  ∃ d, Batch.parse_batch_output text = Return d
       ∧ ∀ k v, Dict.get k d = Some v ↔ (k, v) ∈ matched_pairs text.

(** The label of the last pair with identifier [k]. *)
Fixpoint last_binding (k : nat) (pairs : list (nat * string)) : option string :=
  match pairs with
  | [] => None
  | (k', v) :: r =>
      match last_binding k r with
      | Some v' => Some v'
      | None => if k =? k' then Some v else None
      end
  end.

Definition store (d : Dict.t) (p : nat * string) : Dict.t := Dict.set p.1 p.2 d.

End Spec.

(** A row that the empty-input rule or the resume rule passes over. *)
Definition skipped (r : row) : Prop :=
  blank (colA r) = true ∨ blank (colB r) = false.

(** ** The fallback of [classify_batch], call by call *)

Module Fallback.

(** What the fallback stores for a row, given how its single-row call
    ended. *)
Definition value (r : outcome string) : string :=
  match r with
  | Return out2 => Batch.fallback_label out2
  | Raise e => "ERROR: " +:+ str_exn e
  end.

Definition store (d : Dict.t) (c : Batch.task * outcome string) : Dict.t :=
  Dict.set (Batch.ridx_of c.1) (value c.2) d.

Definition prompt_of (t : Batch.task) : string :=
  Batch.single_prompt t.1.2 t.2.

Definition interrupted {A} (r : outcome A) : Prop :=
  match r with
  | Raise KeyboardInterrupt => True
  | _ => False
  end.

Section WithRemote.
Context {World : Type}.
Variable responses_create :
  string -> string -> World -> outcome OpenAI.response * World.

(** [calls model st cs st']: from [st], the single-row calls for the tasks of
    [cs], made one after the other, end as recorded in [cs] and lead to
    [st']. *)
Inductive calls (model : string)
  : state World -> list (Batch.task * outcome string) -> state World -> Prop :=
| calls_nil st : calls model st [] st
| calls_cons st t r st1 cs st2 :
    Batch.call_openai responses_create (prompt_of t) model st = (r, st1) ->
    calls model st1 cs st2 ->
    calls model st ((t, r) :: cs) st2.

(** The remote service is never interrupted from the keyboard. *)
Definition uninterrupted : Prop :=
  forall model prompt w, ¬ interrupted (responses_create model prompt w).1.

End WithRemote.

End Fallback.

(** ** Runs of the retry wrapper under rate limiting *)

Module Backoff.



Section WithRemote.
Context {World : Type}.
Variable generate_content :
  string -> string -> World -> outcome Gemini.response * World.
Variable uniform : World -> Q * World.

(** [rate_limited model prompt w js w']: from [w], each of the next
    [length js] requests fails with an [Exception] whose message carries a
    rate-limit marker, the jitters drawn after the failures are [js], each
    in [0, 1], and the world ends as [w']. *)
Inductive rate_limited (model prompt : string)
  : World -> list Q -> World -> Prop :=
| limited_nil w : rate_limited model prompt w [] w
| limited_cons w e w1 j w2 js w3 :
    generate_content model prompt w = (Raise e, w1) ->
    is_Exception e = true ->
    Gemini.rate_limited (Py.lower (str_exn e)) = true ->
    uniform w1 = (j, w2) ->
    (0 <= j)%Q -> (j <= 1)%Q ->
    rate_limited model prompt w2 js w3 ->
    rate_limited model prompt w (j :: js) w3.

End WithRemote.

(** The effects of [n] attempts of the decorated single-row call that all
    fail with a transient error: a sleep between attempts, none after the
    last. *)
Fixpoint decorated_effects (wait : nat -> Q) (model prompt : string)
    (attempt_number n : nat) : list event :=
  match n with
  | O => []
  | S O => [Call model prompt]
  | S n' =>
      Call model prompt :: Sleep (wait attempt_number)
      :: decorated_effects wait model prompt (S attempt_number) n'
  end.

Section WithOpenAI.
Context {World : Type}.
Variable responses_create :
  string -> string -> World -> outcome OpenAI.response * World.


End WithOpenAI.


End Backoff.

(** ** Error routing as the specification words it *)

Module Routing.


End Routing.

(** ** Concrete runs *)

Module Runs.
Import Py.

Definition two_lines (a b : string) : string := a +:+ Batch.nl +:+ b.

Definition three_lines (a b c : string) : string :=
  a +:+ Batch.nl +:+ b +:+ Batch.nl +:+ c.

(** A frame with one open row, one answered row and one more open row. *)
Definition resumed_frame : table :=
  [ {| colA := Val "Is it ans0 or ans1?"; colB := NaN |};
    {| colA := Val "Already answered"; colB := Val "done" |};
    {| colA := Val "ans1 or ans2?"; colB := Val "" |} ].

(** The remote answers the batch with a line for every row of the frame. *)
Definition eager_reply : list (outcome OpenAI.response) :=
  [Script.says (three_lines "ID=0 ans1" "ID=1 ans0" "ID=2 ans2")].

(** A frame whose second row was labelled by an earlier run. *)
Definition labelled_frame : table :=
  [ {| colA := Val "ans0 eller ans1?"; colB := Val "" |};
    {| colA := Val "ans0 eller ans1?"; colB := Val "ans1" |} ].

Definition relabel_reply : list (outcome OpenAI.response) :=
  [Script.says (two_lines "ID=0 ans0" "ID=1 ans0")].

(** A frame whose second row has no input and whose third row has only
    blanks as input. *)
Definition sparse_frame : table :=
  [ {| colA := Val "ans0 eller ans1?"; colB := Val "" |};
    {| colA := NaN; colB := NaN |};
    {| colA := Val "   "; colB := Val "" |} ].

Definition sparse_reply : list (outcome OpenAI.response) :=
  [Script.says (three_lines "ID=0 ans1" "ID=1 ans2" "ID=2 ans0")].

(** The options of a run with [--sheet Sheet1] and the defaults
    otherwise. *)
Definition gemini_args (p : string) : Gemini.args :=
  {| Gemini.excel_path := p; Gemini.sheet := Some "Sheet1";
     Gemini.model := Gemini.DEFAULT_MODEL;
     Gemini.sleep_each := 1; Gemini.pause_every := 10;
     Gemini.pause_seconds := 30 |}.

(** A batch of three rows, answered for row 1 only; the single-row request
    for row 0 is answered with a sentence, the one for row 2 fails. *)
Definition fallback_batch : list Batch.task :=
  [ (0, "ans0 eller ans1?", ["ans0"; "ans1"]);
    (1, "ans1 eller ans2?", ["ans1"; "ans2"]);
    (2, "ja eller nei?", ["ans0"; "ans1"; "ans2"]) ].

Definition fallback_replies : list (string + string) :=
  [inl "ID=1 ans2"; inl "Jeg velger Ans0."; inr "500 server error"].

(** A frame with one open row, and a remote that answers neither the batch
    nor the single-row request with a label. *)
Definition open_frame : table :=
  [ {| colA := Val "ans0 eller ans1?"; colB := Val "" |} ].

Definition vague_replies : list (outcome OpenAI.response) :=
  [Script.says "Det kommer an"; Script.says " Vet ikke. "].

Definition exponential (n : nat) : Q := inject_Z (2 ^ Z.of_nat (n - 1)).



(** A remote whose first failure mentions both a quota and a block. *)
Definition quota_then_answer : list (outcome Gemini.response) :=
  [Raise (Exception "Quota exceeded: request blocked"); Script.answers "hello"].

(** An identifier of 4301 digits, and a response line that carries it. *)
Definition long_identifier : string :=
  string_of_list_ascii (repeat "1"%char 4301).

Definition long_line : string := "ID=" +:+ long_identifier +:+ " ans1".

(** A source of jitter that always returns one half. *)
Definition half {W} (w : W) : Q * W := ((1 # 2)%Q, w).

End Runs.

(** ** Further concrete runs *)

Module More.
Import Py.

(** The remote answers the batch of [Runs.open_frame] and adds the example
    line of the prompt. *)
Definition echo_reply : list (outcome OpenAI.response) :=
  [Script.says (Runs.two_lines "ID=0 ans1" "ID=12 ans1")].

Definition complete_reply : list (outcome OpenAI.response) :=
  [Script.says "ID=0 ans1"].

Definition failing_reply : list (outcome OpenAI.response) :=
  [Raise (Exception "401 Unauthorized")].

(** A line of the format that the batch prompt asks for:
    [ID=<id> <etikett>]. *)
Definition response_line (p : nat * string) : string :=
  "ID=" +:+ str_of_nat p.1 +:+ " " +:+ p.2.

Definition no_linebreak (c : ascii) : bool := negb (is_linebreak c).

(** The effects of one pass through the retry loop of [call_gemini_safe]:
    one request, and then at most one sleep, of 30 seconds at most. *)
Definition one_attempt (model prompt : string) (new : list event) : Prop :=
  new = [Call model prompt]
  ∨ ∃ d, new = [Call model prompt; Sleep d] ∧ (0 <= d)%Q ∧ (d <= 30)%Q.

(** An effect that the wrapper may have for [prompt]: a request for that
    prompt, or a sleep of between 0 and 30 seconds. *)
Definition within_bounds (model prompt : string) (e : event) : Prop :=
  match e with
  | Call m p => m = model ∧ p = prompt
  | Sleep d => (0 <= d)%Q ∧ (d <= 30)%Q
  end.

(** A remote service without [KeyboardInterrupt]. *)
Definition never_interrupted {World R : Type}
    (f : string -> string -> World -> outcome R * World) : Prop :=
  forall model prompt w, ¬ Fallback.interrupted (f model prompt w).1.

(** What the Gemini script writes into column B for a row whose call
    ended as [r] (and was not interrupted from the keyboard). *)
Definition gemini_value (r : outcome string) : string :=
  match r with
  | Return answer => if truthy answer then answer else "(empty response)"
  | Raise e => "ERROR: " +:+ str_exn e
  end.

(** The prompt that the single-row script sends for a row. *)
Definition single_prompt_of (r : row) : string :=
  let row_text := strip (Batch.cell_str (colA r)) in
  Single.build_prompt row_text (Single.extract_labels_from_text row_text).


(** The options of a run with the input path alone. *)
Definition gemini_default_args (p : string) : Gemini.args :=
  {| Gemini.excel_path := p; Gemini.sheet := None;
     Gemini.model := Gemini.DEFAULT_MODEL;
     Gemini.sleep_each := 1; Gemini.pause_every := 10;
     Gemini.pause_seconds := 30 |}.

(** A frame whose first row was answered by an earlier run. *)
Definition half_done_frame : table :=
  [ {| colA := Val "Capital of Norway?"; colB := Val "Oslo" |};
    {| colA := Val " Capital of Sweden? "; colB := NaN |};
    {| colA := Val "Capital of Denmark?"; colB := NaN |} ].

Section Answered.
Context {World : Type}.
Variable responses_create :
  string -> string -> World -> outcome OpenAI.response * World.


End Answered.

(** The remote answers the batch of [Runs.open_frame] with a line whose
    identifier has 4301 digits. *)
Definition long_reply : list (outcome OpenAI.response) :=
  [Script.says Runs.long_line].



End More.

(** * Properties *)

(** ** Label extractor *)

Section LabelExtractor.
Import Py Spec.

Lemma first_seen_elem (l : list string) (x : string) :
  x ∈ first_seen l ↔ x ∈ l.
Proof.
  induction l as [|a l IH]; simpl; [done|].
  rewrite !elem_of_cons, list_elem_of_filter, IH.
  destruct (decide (x = a)); naive_solver.
Qed.


(** The loop of [extract_labels] started from any state whose [seen] set
    is [S]: the labels appended are the new ones, in first-seen order. *)
Lemma extract_loop (labels : list string) (S : gset string) (acc : list string) :
  fold_left Batch.extract_step labels (S, acc)
  = (S ∪ list_to_set (map lower labels),
     acc ++ filter (λ x, x ∉ S) (first_seen (map lower labels))).
Proof.
  revert S acc. induction labels as [|lab labels IH]; intros S acc; simpl.
  - f_equal; [set_solver | by rewrite app_nil_r].
  - unfold Batch.extract_step at 2; simpl.
    destruct (decide (lower lab ∈ S)) as [Hin|Hout].
    + rewrite IH. f_equal; [set_solver|]. f_equal.
      rewrite filter_cons_False by naive_solver.
      rewrite list_filter_filter. apply list_filter_iff.
      intros x. split; [|naive_solver]. intros Hx. split; [done|].
      intros ->. done.
    + rewrite IH. f_equal; [set_solver|].
      rewrite filter_cons_True by done.
      rewrite <- app_assoc. simpl. do 2 f_equal.
      rewrite list_filter_filter. apply list_filter_iff.
      intros x. set_solver.
Qed.

Lemma extract_ordered (text : string) :
  (fold_left Batch.extract_step (Re.findall text) (∅, [])).2
  = first_seen (tokens text).
Proof.
  rewrite extract_loop. simpl. unfold tokens.
  generalize (first_seen (map lower (Re.findall text))). intros l.
  induction l as [|a l IH]; [done|].
  rewrite filter_cons_True by set_solver. by rewrite IH.
Qed.






(** [LABEL_RE.search] finds the first token that [LABEL_RE.findall]
    lists. *)
Lemma search_findall_go (prev : option ascii) (s : string) :
  Re.search_go prev s = head (Re.findall_go 0 prev s).
Proof.
  revert prev. induction s as [|c s IH]; intros prev; [done|].
  simpl. destruct (Re.label_at prev (String c s)) as [[tok rest]|]; [done|].
  apply IH.
Qed.

Lemma search_findall (s : string) : Re.search s = head (Re.findall s).
Proof. apply search_findall_go. Qed.

End LabelExtractor.



(** ** Dictionaries *)

Section DictFacts.

Lemma dict_get_set (k k' : nat) (v : string) (d : Dict.t) :
  Dict.get k (Dict.set k' v d) = if decide (k = k') then Some v else Dict.get k d.
Proof.
  induction d as [|[k0 v0] d IH]; simpl.
  - destruct (Nat.eqb_spec k k'); by case_decide.
  - destruct (Nat.eqb_spec k' k0) as [->|Hne]; simpl.
    + destruct (Nat.eqb_spec k k0); by case_decide.
    + destruct (Nat.eqb_spec k k0) as [->|Hne'].
      * by rewrite decide_False by done.
      * apply IH.
Qed.

Lemma dict_mem_set (k k' : nat) (v : string) (d : Dict.t) :
  Dict.mem k (Dict.set k' v d) = bool_decide (k = k') || Dict.mem k d.
Proof.
  unfold Dict.mem. rewrite dict_get_set.
  case_decide; [by rewrite bool_decide_eq_true_2|by rewrite bool_decide_eq_false_2].
Qed.

Lemma dict_mem_keys (k : nat) (d : Dict.t) :
  Dict.mem k d = true ↔ k ∈ Dict.keys d.
Proof.
  unfold Dict.mem. induction d as [|[k0 v0] d IH]; simpl.
  - split; [done|]. by intros ?%elem_of_nil.
  - rewrite elem_of_cons. destruct (Nat.eqb_spec k k0); [naive_solver|].
    rewrite IH. naive_solver.
Qed.

Lemma dict_keys_set (k : nat) (v : string) (d : Dict.t) :
  Dict.keys (Dict.set k v d)
  = if Dict.mem k d then Dict.keys d else Dict.keys d ++ [k].
Proof.
  unfold Dict.mem. induction d as [|[k0 v0] d IH]; simpl; [done|].
  destruct (Nat.eqb_spec k k0) as [->|Hne]; simpl; [done|].
  rewrite IH. by destruct (Dict.get k d).
Qed.

Lemma dict_set_NoDup (k : nat) (v : string) (d : Dict.t) :
  NoDup (Dict.keys d) → NoDup (Dict.keys (Dict.set k v d)).
Proof.
  intros Hnd. rewrite dict_keys_set.
  destruct (Dict.mem k d) eqn:Hm; [done|].
  apply NoDup_app. split; [done|]. split; [|apply NoDup_singleton].
  intros x Hx ->%list_elem_of_singleton.
  apply dict_mem_keys in Hx. congruence.
Qed.

Lemma dict_get_elem (k : nat) (v : string) (d : Dict.t) :
  Dict.get k d = Some v → (k, v) ∈ d.
Proof.
  induction d as [|[k0 v0] d IH]; simpl; [done|].
  destruct (Nat.eqb_spec k k0) as [->|Hne].
  - intros [= ->]. by left.
  - intros H. right. by apply IH.
Qed.

End DictFacts.

(** ** The line grammar *)

Section LineGrammar.
Import Py Spec.

Lemma span_split p s :
  s = (span p s).1 +:+ (span p s).2
  ∧ all_chars p (span p s).1 = true
  ∧ starts_without p (span p s).2.
Proof.
  induction s as [|c s IH]; simpl; [done|].
  destruct (p c) eqn:Hc; [|by simpl; rewrite ?Hc].
  destruct (span p s) as [a b]; simpl in *. rewrite ?Hc.
  destruct IH as (-> & Ha & Hb). done.
Qed.

Lemma span_append p a b :
  all_chars p a = true → starts_without p b → span p (a +:+ b) = (a, b).
Proof.
  intros Ha Hb. induction a as [|c a IH]; simpl in *.
  - destruct b as [|c b]; [done|]. simpl in *. by rewrite Hb.
  - apply andb_prop in Ha as [-> Ha]. by rewrite IH.
Qed.

Lemma lstrip_span s : lstrip s = (span is_space s).2.
Proof.
  induction s as [|c s IH]; simpl; [done|].
  destruct (is_space c); [|done]. by destruct (span is_space s).
Qed.

Lemma all_space_chars s : Re.all_space s = true ↔ all_chars is_space s = true.
Proof.
  unfold Re.all_space. induction s as [|c s IH]; simpl; [done|].
  destruct (is_space c); simpl; [exact IH|done].
Qed.

Lemma last_char_space gap :
  gap ≠ "" → all_chars is_space gap = true →
  ∃ c, Re.last_char gap = Some c ∧ is_space c = true.
Proof.
  induction gap as [|c gap IH]; [done|]. intros _ H. simpl in H.
  apply andb_prop in H as [Hc Hgap]. destruct gap as [|c' gap'].
  - by exists c.
  - destruct IH as (x & Hx & Hsp); [done|done|]. by exists x.
Qed.

Lemma ci_eq_lower p c : ci_eq p c = true ↔ lower_char c = p.
Proof. unfold ci_eq. rewrite Ascii.eqb_eq. split; congruence. Qed.

Lemma space_not_digit c : is_space c = true → is_digit c = false.
Proof. destruct c as [[] [] [] [] [] [] [] []]; vm_compute; congruence. Qed.

Lemma space_not_word c : is_space c = true → is_word c = false.
Proof. destruct c as [[] [] [] [] [] [] [] []]; vm_compute; congruence. Qed.

Lemma letter_not_space p c :
  ci_eq p c = true → is_space p = false → is_space c = false.
Proof.
  unfold ci_eq. intros Heq%Ascii.eqb_eq Hp. subst p. revert Hp.
  destruct c as [[] [] [] [] [] [] [] []]; vm_compute; congruence.
Qed.

Lemma starts_without_space_digit s :
  all_chars is_space s = true → starts_without is_digit s.
Proof.
  destruct s as [|c s]; simpl; [done|]. intros [Hc _]%andb_prop.
  by apply space_not_digit.
Qed.

(** A token at the head of a string, followed by blanks only. *)
Lemma ans_digits_split s tok rest :
  Re.ans_digits s = Some (tok, rest) →
  s = tok +:+ rest ∧ token tok ∧ starts_without is_digit rest.
Proof.
  unfold Re.ans_digits.
  destruct s as [|a [|n [|z r]]]; try done.
  destruct (ci_eq "a" a) eqn:Ha; [|done].
  destruct (ci_eq "n" n) eqn:Hn; [|done].
  destruct (ci_eq "s" z) eqn:Hz; [|done].
  apply ci_eq_lower in Ha, Hn, Hz. cbn [andb].
  destruct (span_split is_digit r) as (Hr & Hds & Hrest).
  destruct (span is_digit r) as [ds r']. cbn [fst snd] in Hr, Hds, Hrest.
  destruct ds as [|d ds]; [done|]. intros [= <- <-].
  split; [simpl; by rewrite Hr|]. split; [|done].
  exists a, n, z, (String d ds). split; [done|]. split; [|done].
  cbn [lower]. by rewrite Ha, Hn, Hz.
Qed.

Lemma ans_digits_token tok rest :
  token tok → starts_without is_digit rest →
  Re.ans_digits (tok +:+ rest) = Some (tok, rest).
Proof.
  intros (a & n & z & ds & -> & Hans & Hne & Hds) Hrest.
  cbn [lower] in Hans. injection Hans as Ha Hn Hz.
  apply ci_eq_lower in Ha, Hn, Hz.
  change (String a (String n (String z ds)) +:+ rest)
    with (String a (String n (String z (ds +:+ rest)))).
  unfold Re.ans_digits.
  rewrite Ha, Hn, Hz. cbn [andb]. rewrite span_append by done.
  by destruct ds.
Qed.

Lemma token_starts_without_space tok rest :
  token tok → starts_without is_space (tok +:+ rest).
Proof.
  intros (a & n & z & ds & -> & Hans & _).
  cbn [lower] in Hans. injection Hans as Ha _ _.
  apply ci_eq_lower in Ha.
  change (String a (String n (String z ds)) +:+ rest)
    with (String a (String n (String z (ds +:+ rest)))).
  by apply (letter_not_space "a").
Qed.

(** [LINE_RE] accepts exactly the lines of the grammar, and its two groups
    are the digits and the token. *)
Lemma line_match_grammar line ds tok :
  Re.line_match line = Some (ds, tok) ↔ line_grammar line ds tok.
Proof.
  split.
  - unfold Re.line_match. rewrite lstrip_span.
    destruct (span_split is_space line) as (Hline & Hlead & _).
    destruct (span is_space line) as [lead body]. cbn [fst snd] in *.
    destruct body as [|i [|d [|e r]]]; try done.
    destruct (ci_eq "i" i) eqn:Hi; [|done].
    destruct (ci_eq "d" d) eqn:Hd; [|done].
    destruct (Ascii.eqb e "=") eqn:He; [|done]. cbn [andb].
    apply ci_eq_lower in Hi, Hd. apply Ascii.eqb_eq in He. subst e.
    destruct (span_split is_digit r) as (Hr & Hds & _).
    destruct (span is_digit r) as [ds' r2]. cbn [fst snd] in *.
    destruct ds' as [|d0 ds']; [done|].
    destruct (span_split is_space r2) as (Hr2 & Hgap & _).
    destruct (span is_space r2) as [gap r3]. cbn [fst snd] in *.
    destruct gap as [|g gap]; [done|].
    unfold Re.label_at.
    destruct (Re.boundary_before _); [|done].
    destruct (Re.ans_digits r3) as [[tok' r4]|] eqn:Hans; [|done].
    destruct (Re.boundary_after r4); [|done].
    destruct (Re.all_space r4) eqn:Htrail; [|done].
    intros [= <- <-].
    apply ans_digits_split in Hans as (Hr3 & Htok & _).
    exists lead, i, d, (String g gap), r4.
    split; [by rewrite Hline, Hr, Hr2, Hr3|].
    split; [done|]. split; [cbn [lower]; by rewrite Hi, Hd|].
    split; [done|]. split; [done|]. split; [done|]. split; [done|].
    split; [done|]. by apply all_space_chars.
  - intros (lead & i & d & gap & trail & -> & Hlead & Hid & Hne & Hds
            & Hgne & Hgap & Htok & Htrail).
    cbn [lower] in Hid. injection Hid as Hi Hd.
    apply ci_eq_lower in Hi, Hd.
    assert (His : is_space i = false) by (by apply (letter_not_space "i")).
    unfold Re.line_match. rewrite lstrip_span, span_append; [|done|done].
    cbn [snd]. rewrite Hi, Hd. cbn [andb Ascii.eqb Bool.eqb].
    rewrite span_append; [|done|].
    2:{ destruct gap as [|g gap]; [done|]. cbn [all_chars] in Hgap.
        apply andb_prop in Hgap as [Hg _]. by apply space_not_digit. }
    destruct ds as [|d0 ds]; [done|].
    rewrite span_append; [|done|by apply token_starts_without_space].
    destruct gap as [|g gap]; [done|].
    destruct (last_char_space (String g gap)) as (c & -> & Hc); [done|done|].
    unfold Re.label_at. cbn [Re.boundary_before].
    rewrite (space_not_word c Hc). cbn [negb].
    rewrite ans_digits_token; [|done|by apply starts_without_space_digit].
    assert (Hb : Re.boundary_after trail = true).
    { destruct trail as [|t trail]; [done|]. cbn [all_chars] in Htrail.
      apply andb_prop in Htrail as [Ht _]. cbn [Re.boundary_after].
      by rewrite (space_not_word t Ht). }
    rewrite Hb. apply all_space_chars in Htrail. by rewrite Htrail.
Qed.

End LineGrammar.

(** ** Response parser *)

Section ResponseParser.
Import Py Spec.

Lemma int_within (ds : string) :
  within_limit ds → int ds = Some (integer ds).
Proof.
  unfold within_limit, int. intros H.
  by destruct (Z.ltb_spec int_max_str_digits (Z.of_nat (String.length ds))); [lia|].
Qed.

Lemma int_beyond (ds : string) : ¬ within_limit ds → int ds = None.
Proof.
  unfold within_limit, int. intros H.
  by destruct (Z.ltb_spec int_max_str_digits (Z.of_nat (String.length ds))); [|lia].
Qed.

Lemma omap_cons_match {A B} (f : A → option B) (x : A) (l : list A) :
  omap f (x :: l) = match f x with Some y => y :: omap f l | None => omap f l end.
Proof. reflexivity. Qed.

Lemma matched_pairs_groups (lines : list string) :
  omap parsed_pair lines
  = map (λ g, (integer g.1, lower g.2)) (omap Re.line_match lines).
Proof.
  induction lines as [|line lines IH]; [done|].
  rewrite !omap_cons_match. unfold parsed_pair at 1.
  destruct (Re.line_match line) as [[g1 g2]|]; simpl; by rewrite IH.
Qed.

(** While the identifiers stay within the limit of [int], the loop stores
    the pairs of the matching lines; lines that do not match the grammar
    leave the dictionary as it is. *)
Lemma parse_lines_pairs (lines : list string) (d : Dict.t) :
  Forall (λ g, within_limit g.1) (omap Re.line_match lines) →
  Batch.parse_lines lines d = Return (fold_left store (omap parsed_pair lines) d).
Proof.
  revert d. induction lines as [|line lines IH]; intros d; [done|].
  rewrite !omap_cons_match. cbn [Batch.parse_lines].
  unfold Batch.parse_line, parsed_pair at 1.
  destruct (Re.line_match line) as [[g1 g2]|]; [|apply IH].
  intros [Hg Hrest]%Forall_cons. cbn [fst] in Hg.
  rewrite (int_within g1 Hg). cbn [fold_left]. by apply IH.
Qed.

(** The first matching line whose identifier is beyond the limit ends the
    loop with the ValueError of [int]. *)
Lemma parse_lines_raises (lines : list string) (d : Dict.t) before ds tok after :
  omap Re.line_match lines = before ++ (ds, tok) :: after →
  Forall (λ g, within_limit g.1) before → ¬ within_limit ds →
  Batch.parse_lines lines d
  = Raise (Exception (int_limit_message (String.length ds))).
Proof.
  revert d before. induction lines as [|line lines IH]; intros d before.
  { by destruct before. }
  rewrite omap_cons_match. cbn [Batch.parse_lines]. unfold Batch.parse_line.
  destruct (Re.line_match line) as [[g1 g2]|]; [|apply IH].
  destruct before as [|[b1 b2] before]; cbn [app].
  - intros [= -> -> Hrest] _ Hbig. by rewrite (int_beyond ds Hbig).
  - intros [= -> -> Hrest] [Hb Hbefore]%Forall_cons Hbig. cbn [fst] in Hb.
    rewrite (int_within b1 Hb). by eapply IH.
Qed.

Lemma store_all_get (pairs : list (nat * string)) (d : Dict.t) (k : nat) :
  Dict.get k (fold_left store pairs d)
  = match last_binding k pairs with
    | Some v => Some v
    | None => Dict.get k d
    end.
Proof.
  revert d. induction pairs as [|[k' v'] pairs IH]; intros d; [done|].
  simpl. rewrite IH. destruct (last_binding k pairs); [done|].
  unfold store; simpl. rewrite dict_get_set.
  destruct (Nat.eqb_spec k k'); by case_decide.
Qed.

Lemma store_all_NoDup (pairs : list (nat * string)) (d : Dict.t) :
  NoDup (Dict.keys d) → NoDup (Dict.keys (fold_left store pairs d)).
Proof.
  revert d. induction pairs as [|p pairs IH]; intros d Hd; [done|].
  simpl. apply IH. by apply dict_set_NoDup.
Qed.

Lemma last_binding_elem (k : nat) (v : string) (pairs : list (nat * string)) :
  last_binding k pairs = Some v → (k, v) ∈ pairs.
Proof.
  induction pairs as [|[k' v'] pairs IH]; simpl; [done|].
  destruct (last_binding k pairs) as [v0|].
  - intros [= ->]. right. by apply IH.
  - destruct (Nat.eqb_spec k k') as [->|]; [|done]. intros [= ->]. by left.
Qed.

Lemma last_binding_some (k : nat) (v : string) (pairs : list (nat * string)) :
  (k, v) ∈ pairs → is_Some (last_binding k pairs).
Proof.
  induction pairs as [|[k' v'] pairs IH]; [by intros ?%elem_of_nil|].
  intros [[= -> ->]|Hin]%elem_of_cons; simpl.
  - destruct (last_binding k' pairs); [done|]. by rewrite Nat.eqb_refl.
  - destruct (IH Hin) as [v0 ->]. done.
Qed.

End ResponseParser.

(** C6, the claim as worded fails: when two matching lines carry the same
    identifier, the pair of the earlier line is not part of the result. *)
Lemma C6_parser_counterexample :
  ¬ Spec.returns_exactly_matched_pairs ("ID=3 ans1" +:+ Batch.nl +:+ "ID=3 ans2").
Proof.
  intros (d & Hd & H). vm_compute in Hd. injection Hd as <-.
  specialize (H 3 "ans1"). destruct H as [_ H].
  assert (Hin : (3, "ans1") ∈
    Spec.matched_pairs ("ID=3 ans1" +:+ Batch.nl +:+ "ID=3 ans2")) by (by left).
  specialize (H Hin). vm_compute in H. discriminate H.
Qed.

(** C6 (response parser), amended.  The texts are texts of the characters
    0..255.  A line matches when it consists of optional blanks, [ID=] in
    any case, digits, at least one blank, a token ([ans] in any case and
    digits) and optional blanks.  [parse_batch_output] goes through the
    lines in order.
    - When no matching line has an identifier of more than 4300 digits, it
      returns the dictionary obtained by storing, in line order, the pair
      (identifier, lowercased label) of every matching line, a later line
      replacing the label of an earlier line with the same identifier; lines
      that do not match contribute nothing.  Hence: keys are distinct, each
      identifier of a matching line is a key bound to the label of the last
      matching line that carries it, and every binding comes from a matching
      line.
    - Otherwise it raises: at the first matching line whose identifier has
      more than 4300 digits, [int] fails with a ValueError and the parser
      returns nothing. *)
Theorem C6_response_parser (text : string) :
  let groups := Spec.matched_groups text in
  let pairs := Spec.matched_pairs text in
  (Forall (λ g, Spec.within_limit g.1) groups →
   ∃ d, Batch.parse_batch_output text = Return d
        ∧ d = fold_left Spec.store pairs []
        ∧ NoDup (Dict.keys d)
        ∧ (∀ k, Dict.get k d = Spec.last_binding k pairs)
        ∧ (∀ k v, Dict.get k d = Some v → (k, v) ∈ pairs)
        ∧ (∀ k v, (k, v) ∈ pairs → Dict.mem k d = true))
  ∧ (∀ before ds tok after,
       groups = before ++ (ds, tok) :: after →
       Forall (λ g, Spec.within_limit g.1) before →
       ¬ Spec.within_limit ds →
       Batch.parse_batch_output text
       = Raise (Exception (Py.int_limit_message (String.length ds))))
  ∧ (∀ line k v,
       Spec.parsed_pair line = Some (k, v)
       ↔ ∃ ds tok, Spec.line_grammar line ds tok
                   ∧ k = Spec.integer ds ∧ v = Py.lower tok).
Proof.
  intros groups pairs. split; [|split].
  - intros Hlimit. exists (fold_left Spec.store pairs []).
    assert (Hget : ∀ k, Dict.get k (fold_left Spec.store pairs [])
                        = Spec.last_binding k pairs).
    { intros k. rewrite store_all_get. by destruct (Spec.last_binding k pairs). }
    split; [by apply parse_lines_pairs|]. split; [done|]. split.
    { apply store_all_NoDup. constructor. }
    split; [exact Hget|]. split.
    + intros k v. rewrite Hget. apply last_binding_elem.
    + intros k v Hin. unfold Dict.mem. rewrite Hget.
      by destruct (last_binding_some _ _ _ Hin) as [v' ->].
  - intros before ds tok after Hgroups Hbefore Hbig.
    by eapply parse_lines_raises.
  - intros line k v. unfold Spec.parsed_pair. split.
    + destruct (Re.line_match line) as [[ds tok]|] eqn:Hm; [|done].
      intros [= <- <-]. exists ds, tok. by rewrite <- line_match_grammar.
    + intros (ds & tok & Hg & -> & ->).
      apply line_match_grammar in Hg. by rewrite Hg.
Qed.

Lemma C6_response_parser_witness :
  (3, "ans2") ∈ Spec.matched_pairs ("id=3 ANS2" +:+ Batch.nl +:+ "noise")
  ∧ (∃ d, Batch.parse_batch_output ("id=3 ANS2" +:+ Batch.nl +:+ "noise") = Return d
          ∧ Dict.mem 3 d = true)
  ∧ Batch.parse_batch_output (Runs.two_lines "ID=0 ans0" Runs.long_line)
    = Raise (Exception
               (Py.int_limit_message (String.length Runs.long_identifier))).
Proof.
  assert (Hin : (3, "ans2") ∈
    Spec.matched_pairs ("id=3 ANS2" +:+ Batch.nl +:+ "noise")).
  { apply (proj2 (list_elem_of_In _ _)). simpl. left. reflexivity. }
  split; [exact Hin|]. split.
  - destruct (proj1 (C6_response_parser ("id=3 ANS2" +:+ Batch.nl +:+ "noise")))
      as (d & Hd & _ & _ & _ & _ & Hmem).
    + apply Forall_cons. split; [|constructor].
      unfold Spec.within_limit. vm_compute. discriminate.
    + exists d. split; [exact Hd|]. by apply (Hmem 3 "ans2").
  - apply (proj1 (proj2 (C6_response_parser
                           (Runs.two_lines "ID=0 ans0" Runs.long_line)))
             [("0", "ans0")] Runs.long_identifier "ans1" []).
    + vm_compute. reflexivity.
    + apply Forall_cons. split; [|constructor].
      unfold Spec.within_limit. vm_compute. discriminate.
    + unfold Spec.within_limit. intros H. apply H. vm_compute. reflexivity.
Defined.

(** ** Skipping rows: what holds in every pipeline *)

Section Skips.
Context {World : Type}.

Section GeminiRows.
Variable generate_content :
  string -> string -> World -> outcome Gemini.response * World.
Variable uniform : World -> Q * World.

Abbreviation rows_loop := (Gemini.rows_loop generate_content uniform).

(** The iteration of a skipped row makes no request and no write. *)
Lemma gemini_skip_step a i rest df processed st r :
  df !! i = Some r → skipped r →
  rows_loop a (i :: rest) df processed st
  = rows_loop a rest df (processed + 1)%Z st.
Proof.
  intros Hr Hs. cbn [Gemini.rows_loop]. unfold iat_B. rewrite Hr.
  destruct Hs as [-> | ->]; [done|]. by destruct (blank (colA r)).
Qed.




End GeminiRows.

Section BatchRows.
Variable responses_create :
  string -> string -> World -> outcome OpenAI.response * World.

(** Only rows with input and without output become tasks. *)
Lemma batch_task_rows df idx text labels :
  (idx, text, labels) ∈ Batch.collect_tasks df →
  ∃ r, df !! idx = Some r ∧ ¬ skipped r
       ∧ text = Py.strip (Batch.cell_str (colA r))
       ∧ labels = Batch.extract_labels text.
Proof.
  unfold Batch.collect_tasks. rewrite list_elem_of_omap.
  intros [[i r] [Hin Ht]]. simpl in Ht.
  apply list_elem_of_lookup in Hin as [j Hj].
  rewrite list_lookup_imap in Hj.
  destruct (df !! j) as [r'|] eqn:Hr; [|done]. simpl in Hj.
  injection Hj as Hi Hrr. subst i r.
  unfold Batch.task_of, iat_B in Ht. rewrite Hr in Ht.
  destruct (blank (colA r')) eqn:HA; [done|].
  destruct (blank (colB r')) eqn:HB; [|done].
  simpl in Ht. injection Ht as Hi Ht Hl. subst idx text labels.
  exists r'. split; [done|]. split; [|done].
  intros [H|H]; congruence.
Qed.



End BatchRows.

End Skips.

(** ** The write-back loop of the batch script

    [classify_batch] returns every identifier found in the response, and the
    loop [for ridx, label in results.items(): df.iat[ridx, 1] = label] writes
    all of them, also those that are not rows of the batch.  The three runs
    below show what this does to rows that were never dispatched. *)

(** C1 (resume idempotence) at a failing input, in a run with
    [--sheet Sheet1].  Row 1 of the frame holds
    the answer [done]; the resume rule keeps it out of the tasks, so no
    request is made for it; the only request is the batch of rows 0 and 2;
    the response carries a line [ID=1 ans0], and the saved frame holds [ans0]
    in row 1 instead of [done]. *)
Theorem C1_resume_overwritten :
  let run := Batch.main Script.scripted "data.xlsx" (Some "Sheet1")
               Batch.DEFAULT_MODEL Batch.DEFAULT_BATCH Runs.resumed_frame
               (Script.start Runs.eager_reply) in
  iat_B Runs.resumed_frame 1 = Val "done"
  ∧ blank (iat_B Runs.resumed_frame 1) = false
  ∧ map Batch.ridx_of (Batch.collect_tasks Runs.resumed_frame) = [0; 2]
  ∧ ∃ df' st', run = (Return ("data_with_results.xlsx", df'), st')
      ∧ length (calls (trace st')) = 1
      ∧ iat_B df' 1 = Val "ans0".
Proof.
  repeat split; try (vm_compute; reflexivity).
  eexists _, _. split; [vm_compute; reflexivity|].
  split; vm_compute; reflexivity.
Qed.

(** C2 (never-overwrite invariant) at a failing input, in a run with
    [--sheet Sheet1].  Row 1 was labelled
    [ans1] by an earlier run; the response to the batch made of row 0 alone
    names row 1 as well, and the write-back loop replaces [ans1] by
    [ans0]. *)
Theorem C2_prefilled_cell_overwritten :
  let run := Batch.main Script.scripted "data.xlsx" (Some "Sheet1")
               Batch.DEFAULT_MODEL Batch.DEFAULT_BATCH Runs.labelled_frame
               (Script.start Runs.relabel_reply) in
  iat_B Runs.labelled_frame 1 = Val "ans1"
  ∧ Batch.parse_batch_output (Runs.two_lines "ID=0 ans0" "ID=1 ans0")
    = Return [(0, "ans0"); (1, "ans0")]
  ∧ ∃ df' st', run = (Return ("data_with_results.xlsx", df'), st')
      ∧ iat_B df' 1 = Val "ans0".
Proof.
  repeat split; try (vm_compute; reflexivity).
  eexists _, _. split; vm_compute; reflexivity.
Qed.

(** C8 (empty-input skip) at a failing input, in a run with
    [--sheet Sheet1].  Row 1 has no input and row 2
    only blanks; neither becomes a task, and yet the saved frame holds the
    labels that the response gave for their identifiers. *)
Theorem C8_empty_input_row_written :
  let run := Batch.main Script.scripted "data.xlsx" (Some "Sheet1")
               Batch.DEFAULT_MODEL Batch.DEFAULT_BATCH Runs.sparse_frame
               (Script.start Runs.sparse_reply) in
  map Batch.ridx_of (Batch.collect_tasks Runs.sparse_frame) = [0]
  ∧ iat_B Runs.sparse_frame 1 = NaN
  ∧ iat_B Runs.sparse_frame 2 = Val ""
  ∧ ∃ df' st', run = (Return ("data_with_results.xlsx", df'), st')
      ∧ length (calls (trace st')) = 1
      ∧ iat_B df' 1 = Val "ans2"
      ∧ iat_B df' 2 = Val "ans0".
Proof.
  repeat split; try (vm_compute; reflexivity).
  eexists _, _. split; [vm_compute; reflexivity|].
  repeat split; vm_compute; reflexivity.
Qed.

(** ** Output path *)

Section OutputPath.
Import Py.

Lemma append_cons (c : ascii) (a b : string) :
  String c a +:+ b = String c (a +:+ b).
Proof. reflexivity. Qed.

Lemma length_append_s (a b : string) :
  String.length (a +:+ b) = String.length a + String.length b.
Proof.
  induction a as [|c a IH]; [done|]. rewrite append_cons. simpl. by rewrite IH.
Qed.

Lemma append_nil_s (a : string) : a +:+ "" = a.
Proof.
  induction a as [|c a IH]; [done|]. rewrite append_cons. by rewrite IH.
Qed.

Lemma replace_fuel_nil n old new :
  old ≠ "" → replace_fuel n old new "" = "".
Proof. destruct n, old; done. Qed.

Lemma drop_prefix_cons (a b : ascii) (p s : string) :
  drop_prefix (String a p) (String b s)
  = if Ascii.eqb a b then drop_prefix p s else None.
Proof. reflexivity. Qed.

Ltac xlsx_step :=
  rewrite append_cons, !drop_prefix_cons;
  match goal with
  | |- context [Ascii.eqb ?a ?b] =>
      destruct (Ascii.eqb_spec a b) as [<-|]; [|done]
  end.

(** An occurrence of [.xlsx] cannot start inside a stem and end inside the
    extension that follows it. *)
Lemma xlsx_no_straddle (stem : string) :
  stem ≠ "" → drop_prefix ".xlsx" stem = None →
  drop_prefix ".xlsx" (stem +:+ ".xlsx") = None.
Proof.
  intros Hne.
  destruct stem as [|c1 s1]; [done|]. xlsx_step.
  destruct s1 as [|c2 s2]; [done|]. xlsx_step.
  destruct s2 as [|c3 s3]; [done|]. xlsx_step.
  destruct s3 as [|c4 s4]; [done|]. xlsx_step.
  destruct s4 as [|c5 s5]; [done|]. xlsx_step. done.
Qed.

Lemma replace_xlsx_stem (new stem : string) (n : nat) :
  String.length stem < n → contains ".xlsx" stem = false →
  replace_fuel n ".xlsx" new (stem +:+ ".xlsx") = stem +:+ new.
Proof.
  revert n. induction stem as [|c stem IH]; intros n Hn Hc.
  - destruct n as [|n]; [simpl in Hn; lia|].
    change ("" +:+ ".xlsx") with ".xlsx". change ("" +:+ new) with new.
    cbn [replace_fuel]. change (drop_prefix ".xlsx" ".xlsx") with (Some "").
    cbn iota. by rewrite replace_fuel_nil, append_nil_s.
  - destruct n as [|n]; [simpl in Hn; lia|].
    cbn [contains] in Hc.
    destruct (drop_prefix ".xlsx" (String c stem)) eqn:Hd; [done|].
    cbn [replace_fuel]. rewrite xlsx_no_straddle by done.
    rewrite !append_cons. rewrite IH; [done| |done]. simpl in Hn. lia.
Qed.

(** For a path whose only [.xlsx] is its extension, the output path is the
    stem with the suffix before the extension, and differs from the input. *)
Lemma out_path_xlsx (stem : string) :
  contains ".xlsx" stem = false →
  Batch.out_path (stem +:+ ".xlsx") = stem +:+ "_with_results.xlsx"
  ∧ Gemini.out_path (stem +:+ ".xlsx") = stem +:+ "_with_answers.xlsx"
  ∧ Batch.out_path (stem +:+ ".xlsx") ≠ stem +:+ ".xlsx"
  ∧ Gemini.out_path (stem +:+ ".xlsx") ≠ stem +:+ ".xlsx".
Proof.
  intros Hc.
  assert (Hlen : String.length stem < S (String.length (stem +:+ ".xlsx")))
    by (rewrite length_append_s; lia).
  unfold Batch.out_path, Gemini.out_path, replace.
  rewrite !replace_xlsx_stem by done.
  split; [done|]. split; [done|].
  split; intros H%(inj (String.append stem)); discriminate H.
Qed.

(** Without any [.xlsx] in it, a path is its own output path. *)
Lemma replace_absent (n : nat) (old new s : string) :
  contains old s = false → replace_fuel n old new s = s.
Proof.
  revert s. induction n as [|n IH]; intros s Hc; [done|].
  destruct s as [|c s]; simpl in *.
  - by destruct (drop_prefix old "").
  - destruct (drop_prefix old (String c s)); [done|]. by rewrite IH.
Qed.

Lemma out_path_other (path : string) :
  contains ".xlsx" path = false →
  Batch.out_path path = path ∧ Gemini.out_path path = path
  ∧ Single.out_path path = path.
Proof.
  intros Hc. unfold Batch.out_path, Gemini.out_path, Single.out_path, replace.
  by rewrite !replace_absent.
Qed.

End OutputPath.

(** C9 (output path derivation) at a failing input.  The path is computed
    by replacing every occurrence of [.xlsx]; for [data.xlsx] this inserts
    the suffix before the extension, but a macro-enabled workbook
    [data.xlsm] contains no such occurrence, the output path is the input
    path, and the save replaces the file that was read. *)
Theorem C9_output_path_is_input_path :
  Batch.out_path "data.xlsx" = "data_with_results.xlsx"
  ∧ Gemini.out_path "data.xlsx" = "data_with_answers.xlsx"
  ∧ Batch.out_path "data.xlsm" = "data.xlsm"
  ∧ Gemini.out_path "data.xlsm" = "data.xlsm"
  ∧ Single.out_path "data.xlsm" = "data.xlsm"
  ∧ Batch.out_path "run.xlsx.d/data.xlsx"
    = "run_with_results.xlsx.d/data_with_results.xlsx".
Proof. repeat split; vm_compute; reflexivity. Qed.

(** ** Batch fallback *)

Section BatchFallback.
Context {World : Type}.
Variable responses_create :
  string -> string -> World -> outcome OpenAI.response * World.
Hypothesis no_interrupt : Fallback.uninterrupted responses_create.

Abbreviation call_openai := (Batch.call_openai responses_create).
Abbreviation ids := (map Batch.ridx_of).

(** A call is one request; it returns a text or raises an [Exception]. *)
Lemma call_openai_cases prompt model st :
  ∃ r w, call_openai prompt model st
         = (r, {| world := w; trace := trace st ++ [Call model prompt] |})
         ∧ ¬ Fallback.interrupted r.
Proof.
  unfold Batch.call_openai, bind, request, ret.
  pose proof (no_interrupt model prompt (world st)) as Hni.
  destruct (responses_create model prompt (world st)) as [[resp|e] w]; simpl in *.
  - eexists _, _. split; [reflexivity|]. by intros [].
  - eexists _, _. split; [reflexivity|]. exact Hni.
Qed.

(** One pass of the fallback loop for a row that already has a label. *)
Lemma fallback_one_present model t parsed st :
  Dict.mem (Batch.ridx_of t) parsed = true →
  Batch.fallback_one responses_create model t parsed st = (Return parsed, st).
Proof.
  destruct t as [[ridx text] labels]. unfold Batch.fallback_one, Batch.ridx_of.
  simpl. by intros ->.
Qed.

(** One pass for a row without a label: its own call, whose outcome is
    stored for that row. *)
Lemma fallback_one_missing model t parsed st :
  Dict.mem (Batch.ridx_of t) parsed = false →
  ∃ r st1, call_openai (Fallback.prompt_of t) model st = (r, st1)
    ∧ ¬ Fallback.interrupted r
    ∧ Batch.fallback_one responses_create model t parsed st
      = (Return (Fallback.store parsed (t, r)), st1).
Proof.
  destruct t as [[ridx text] labels]. unfold Batch.fallback_one, Batch.ridx_of.
  simpl. intros ->.
  destruct (call_openai_cases (Batch.single_prompt text labels) model st)
    as (r & w & Hcall & Hnir).
  exists r, {| world := w; trace := trace st ++ [Call model (Batch.single_prompt text labels)] |}.
  split; [exact Hcall|]. split; [exact Hnir|].
  unfold try_except, bind, ret. unfold Fallback.prompt_of in Hcall; simpl in Hcall.
  rewrite Hcall. destruct r as [out2|e]; [done|].
  destruct e as [m|m|]; [done|done|]. by destruct Hnir.
Qed.

(** The whole fallback loop, started from any dictionary. *)
Lemma fallback_loop model batch parsed st :
  ∃ cs st2,
    for_each (Batch.fallback_one responses_create model) batch parsed st
    = (Return (fold_left Fallback.store cs parsed), st2)
    ∧ Fallback.calls responses_create model st cs st2
    ∧ sublist (map fst cs) batch
    ∧ NoDup (ids (map fst cs))
    ∧ (∀ k, k ∈ ids (map fst cs) ↔ k ∈ ids batch ∧ Dict.mem k parsed = false)
    ∧ Forall (λ c, ¬ Fallback.interrupted c.2) cs.
Proof.
  revert parsed st. induction batch as [|t batch IH]; intros parsed st.
  - exists [], st. split; [done|]. split; [constructor|].
    split; [constructor|]. split; [constructor|]. split; [|constructor].
    intros k. simpl. split; [by intros ?%elem_of_nil|by intros [?%elem_of_nil _]].
  - cbn [for_each]. unfold bind.
    destruct (Dict.mem (Batch.ridx_of t) parsed) eqn:Hm.
    + rewrite fallback_one_present by done.
      destruct (IH parsed st) as (cs & st2 & Hrun & Hcalls & Hsub & Hnd & Hin & Hni).
      exists cs, st2. split; [exact Hrun|]. split; [exact Hcalls|].
      split; [by apply sublist_cons|]. split; [exact Hnd|]. split; [|exact Hni].
      intros k. rewrite Hin. simpl. rewrite elem_of_cons. split.
      * intros [Hk Hkm]. split; [by right|done].
      * intros [[->|Hk] Hkm]; [congruence|done].
    + destruct (fallback_one_missing model t parsed st Hm)
        as (r & st1 & Hcall & Hnir & ->).
      destruct (IH (Fallback.store parsed (t, r)) st1)
        as (cs & st2 & Hrun & Hcalls & Hsub & Hnd & Hin & Hni).
      exists ((t, r) :: cs), st2.
      assert (Hmem : ∀ k, Dict.mem k (Fallback.store parsed (t, r))
                         = bool_decide (k = Batch.ridx_of t) || Dict.mem k parsed).
      { intros k. unfold Fallback.store. apply dict_mem_set. }
      split; [exact Hrun|]. split; [by econstructor|].
      split; [by apply sublist_skip|]. split.
      { simpl. constructor; [|done]. intros Hk. apply Hin in Hk as [_ Hk].
        rewrite Hmem, bool_decide_eq_true_2 in Hk by done. done. }
      split; [|by constructor].
      intros k. simpl. rewrite !elem_of_cons, Hin, Hmem.
      destruct (decide (k = Batch.ridx_of t)) as [->|Hne].
      * rewrite bool_decide_eq_true_2 by done. naive_solver.
      * rewrite bool_decide_eq_false_2 by done. naive_solver.
Qed.

(** The requests made by the fallback, in order. *)
Lemma fallback_calls_trace model st cs st2 :
  Fallback.calls responses_create model st cs st2 →
  trace st2 = trace st ++ map (λ c, Call model (Fallback.prompt_of c.1)) cs.
Proof.
  induction 1 as [st|st t r st1 cs st2 Hcall _ IH]; simpl.
  - by rewrite app_nil_r.
  - destruct (call_openai_cases (Fallback.prompt_of t) model st)
      as (r' & w & Hcall' & _).
    rewrite Hcall in Hcall'. injection Hcall' as _ ->.
    rewrite IH. simpl. by rewrite <- app_assoc.
Qed.

Lemma stored_other (cs : list (Batch.task * outcome string)) d k :
  k ∉ ids (map fst cs) →
  Dict.get k (fold_left Fallback.store cs d) = Dict.get k d.
Proof.
  revert d. induction cs as [|[t r] cs IH]; intros d Hk; [done|].
  simpl in *. apply not_elem_of_cons in Hk as [Hne Hk].
  rewrite IH by done. unfold Fallback.store; simpl.
  rewrite dict_get_set. by rewrite decide_False.
Qed.

Lemma stored_value (cs : list (Batch.task * outcome string)) d t r :
  NoDup (ids (map fst cs)) → (t, r) ∈ cs →
  Dict.get (Batch.ridx_of t) (fold_left Fallback.store cs d)
  = Some (Fallback.value r).
Proof.
  revert d. induction cs as [|[t' r'] cs IH]; intros d Hnd Hin;
    [by apply elem_of_nil in Hin|].
  simpl in Hnd. apply NoDup_cons in Hnd as [Hfresh Hnd].
  apply elem_of_cons in Hin as [[= -> ->]|Hin]; simpl.
  - rewrite stored_other by done. unfold Fallback.store; simpl.
    rewrite dict_get_set. by rewrite decide_True.
  - by apply IH.
Qed.

Lemma stored_mem (cs : list (Batch.task * outcome string)) d k :
  Dict.mem k (fold_left Fallback.store cs d) = true
  ↔ Dict.mem k d = true ∨ k ∈ ids (map fst cs).
Proof.
  revert d. induction cs as [|[t r] cs IH]; intros d; simpl.
  - split; [by left|]. intros [?|?%elem_of_nil]; done.
  - rewrite IH. unfold Fallback.store at 1; simpl.
    rewrite dict_mem_set, elem_of_cons, orb_true_iff, bool_decide_eq_true.
    naive_solver.
Qed.

Lemma forallb_false_elem {A} (f : A → bool) (l : list A) (x : A) :
  x ∈ l → f x = false → forallb f l = false.
Proof.
  induction l as [|a l IH]; [by intros ?%elem_of_nil|].
  intros [->|Hin]%elem_of_cons Hx; simpl.
  - by rewrite Hx.
  - rewrite IH by done. apply andb_false_r.
Qed.

(** C3 (batch fallback completeness).  Take a batch whose combined request
    returned a text, in a run that is not interrupted from the keyboard, and
    let the identifiers of the dictionary [parsed] read from that text be a
    strict subset of the row indices of the batch.  Then [classify_batch] returns a dictionary and
    - makes, after the combined request, exactly one single-row request for
      each missing identifier, in batch order, and nothing else;
    - every row index of the batch is a key of the result, and the result has
      no other key;
    - the labels parsed from the combined response are kept;
    - each missing identifier is bound to the outcome of its own request: the
      label taken from its response, or [ERROR: ] followed by the message of
      the exception that its request raised. *)
Theorem C3_batch_fallback_complete batch model st out st1 parsed :
  call_openai (Batch.build_batch_prompt batch) model st = (Return out, st1) →
  Batch.parse_batch_output out = Return parsed →
  (∀ k, k ∈ Dict.keys parsed → k ∈ ids batch) →
  (∃ k, k ∈ ids batch ∧ k ∉ Dict.keys parsed) →
  ∃ cs st2,
    let result := fold_left Fallback.store cs parsed in
    Batch.classify_batch responses_create batch model st = (Return result, st2)
    ∧ Fallback.calls responses_create model st1 cs st2
    ∧ trace st2 = trace st1 ++ map (λ c, Call model (Fallback.prompt_of c.1)) cs
    ∧ sublist (map fst cs) batch
    ∧ NoDup (ids (map fst cs))
    ∧ (∀ k, k ∈ ids (map fst cs) ↔ k ∈ ids batch ∧ k ∉ Dict.keys parsed)
    ∧ (∀ t, t ∈ batch → Dict.mem (Batch.ridx_of t) result = true)
    ∧ (∀ k, k ∈ Dict.keys result ↔ k ∈ ids batch)
    ∧ (∀ k v, Dict.get k parsed = Some v → Dict.get k result = Some v)
    ∧ (∀ t r, (t, r) ∈ cs →
         Dict.get (Batch.ridx_of t) result = Some (Fallback.value r)
         ∧ ¬ Fallback.interrupted r).
Proof.
  intros Hcall Hparse Hsub (k0 & Hk0 & Hk0missing).
  destruct (fallback_loop model batch parsed st1)
    as (cs & st2 & Hrun & Hcalls & Hsl & Hnd & Hin & Hni).
  assert (Hmiss : ∀ k, Dict.mem k parsed = false ↔ k ∉ Dict.keys parsed).
  { intros k. rewrite <- dict_mem_keys. by destruct (Dict.mem k parsed). }
  exists cs, st2. cbn zeta.
  split.
  { unfold Batch.classify_batch, bind. rewrite Hcall. unfold lift.
    rewrite Hparse.
    apply list_elem_of_fmap in Hk0 as (t0 & -> & Ht0).
    rewrite (forallb_false_elem _ _ t0 Ht0); [exact Hrun|].
    by apply Hmiss. }
  split; [exact Hcalls|]. split; [by apply fallback_calls_trace|].
  split; [exact Hsl|]. split; [exact Hnd|].
  split; [intros k; by rewrite Hin, Hmiss|].
  split.
  { intros t Ht. apply stored_mem.
    destruct (Dict.mem (Batch.ridx_of t) parsed) eqn:Hm; [by left|right].
    apply Hin. split; [|done]. by apply list_elem_of_fmap_2. }
  split.
  { intros k. rewrite <- dict_mem_keys, stored_mem, Hin, dict_mem_keys.
    split; [|intros Hk; destruct (Dict.mem k parsed) eqn:Hm].
    - intros [Hk|[Hk _]]; [by apply Hsub|done].
    - left. by apply dict_mem_keys.
    - by right. }
  split.
  { intros k v Hget. rewrite stored_other; [done|].
    intros [_ Hk]%Hin. unfold Dict.mem in Hk. by rewrite Hget in Hk. }
  intros t r Htr. split; [by apply stored_value|].
  rewrite Forall_forall in Hni. by apply (Hni (t, r)).
Qed.

End BatchFallback.

Lemma polite_uninterrupted : Fallback.uninterrupted Script.polite.
Proof. intros model prompt [|[s|m] w]; simpl; tauto. Qed.

Lemma C3_batch_fallback_complete_witness :
  ∃ cs st2,
    Batch.classify_batch Script.polite Runs.fallback_batch "gpt-4.1"
      (Script.start Runs.fallback_replies)
    = (Return (fold_left Fallback.store cs [(1, "ans2")]), st2)
    ∧ (∀ t, t ∈ Runs.fallback_batch →
         Dict.mem (Batch.ridx_of t) (fold_left Fallback.store cs [(1, "ans2")]) = true)
    ∧ (Batch.classify_batch Script.polite Runs.fallback_batch "gpt-4.1"
         (Script.start Runs.fallback_replies)).1
      = Return [(1, "ans2"); (0, "ans0"); (2, "ERROR: 500 server error")].
Proof.
  destruct (C3_batch_fallback_complete Script.polite polite_uninterrupted
              Runs.fallback_batch "gpt-4.1" (Script.start Runs.fallback_replies)
              "ID=1 ans2"
              {| world := [inl "Jeg velger Ans0."; inr "500 server error"];
                 trace := [Call "gpt-4.1" (Batch.build_batch_prompt Runs.fallback_batch)] |}
              [(1, "ans2")])
    as (cs & st2 & Hrun & Hcalls & Htrace & Hsub & Hnd & Hin & Hmem & _).
  - reflexivity.
  - reflexivity.
  - intros k Hk. apply (proj1 (list_elem_of_In _ _)) in Hk. simpl in Hk.
    destruct Hk as [<-|[]]. apply (proj2 (list_elem_of_In _ _)). simpl. tauto.
  - exists 0. split.
    + apply (proj2 (list_elem_of_In _ _)). simpl. tauto.
    + intros Hk. apply (proj1 (list_elem_of_In _ _)) in Hk. simpl in Hk.
      destruct Hk as [Hk|[]]. discriminate Hk.
  - exists cs, st2. split; [exact Hrun|]. split; [exact Hmem|].
    vm_compute. reflexivity.
Defined.

(** ** Cleanup of single-row responses *)

Section Trimming.
Import Py Spec.

Lemma rstrip_idem (s : string) : rstrip (rstrip s) = rstrip s.
Proof.
  induction s as [|c s IH]; [done|]. cbn [rstrip].
  destruct (rstrip s) as [|c' r] eqn:Hr.
  - destruct (is_space c) eqn:Hc; [done|]. cbn [rstrip]. by rewrite Hc.
  - cbn [rstrip]. cbn [rstrip] in IH. by rewrite IH.
Qed.

Lemma lstrip_starts (s : string) : starts_without is_space (lstrip s).
Proof.
  induction s as [|c s IH]; [done|]. cbn [lstrip].
  by destruct (is_space c) eqn:Hc.
Qed.

Lemma lstrip_fixed (s : string) : starts_without is_space s → lstrip s = s.
Proof. destruct s as [|c s]; [done|]. cbn. by intros ->. Qed.

Lemma rstrip_starts (s : string) :
  starts_without is_space s → starts_without is_space (rstrip s).
Proof.
  destruct s as [|c s]; [done|]. cbn [starts_without rstrip]. intros Hc.
  rewrite Hc. by destruct (rstrip s).
Qed.

(** Trimming a trimmed text changes nothing. *)
Lemma strip_idem (s : string) : strip (strip s) = strip s.
Proof.
  unfold strip. rewrite (lstrip_fixed (rstrip (lstrip s))).
  - apply rstrip_idem.
  - apply rstrip_starts, lstrip_starts.
Qed.

End Trimming.

Section Cleanup.
Context {World : Type}.
Variable responses_create :
  string -> string -> World -> outcome OpenAI.response * World.
Variable wait_exponential : nat -> Q.

Lemma fallback_label_cleaned (out2 : string) :
  Batch.fallback_label out2 = Spec.cleaned out2.
Proof.
  unfold Batch.fallback_label, Spec.cleaned. by rewrite search_findall.
Qed.

Lemma clean_label_cleaned (label : string) :
  Single.clean_label label = Spec.cleaned label.
Proof.
  unfold Single.clean_label, Spec.cleaned. by rewrite search_findall.
Qed.

(** The fallback pass of a row whose request returned [out2]. *)
Lemma fallback_one_returned model t parsed st out2 st1 :
  Dict.mem (Batch.ridx_of t) parsed = false →
  Batch.call_openai responses_create (Fallback.prompt_of t) model st
  = (Return out2, st1) →
  Batch.fallback_one responses_create model t parsed st
  = (Return (Dict.set (Batch.ridx_of t) (Spec.cleaned out2) parsed), st1).
Proof.
  destruct t as [[ridx text] labels].
  unfold Batch.fallback_one, Batch.ridx_of, Fallback.prompt_of. simpl.
  intros -> Hcall. unfold try_except, bind, ret. rewrite Hcall.
  by rewrite fallback_label_cleaned.
Qed.

(** The row of the single-row classifier whose request returned [label]. *)
Lemma row_body_returned model idx df st r label st1 :
  df !! idx = Some r → blank (colA r) = false →
  let text := Py.strip (Batch.cell_str (colA r)) in
  Single.call_openai_strict_label responses_create wait_exponential
    (Single.build_prompt text (Single.extract_labels_from_text text)) model st
  = (Return label, st1) →
  Single.row_body responses_create wait_exponential model idx df st
  = (Return (alter (set_colB (Spec.cleaned label)) idx df), st1).
Proof.
  intros Hr HA text Hcall. unfold Single.row_body. rewrite Hr, HA.
  fold text. unfold try_except, bind, ret. rewrite Hcall.
  by rewrite clean_label_cleaned.
Qed.

End Cleanup.

(** C10 (what the cleanup stores).  In the per-row fallback of
    [classify_batch], and in the row loop of the single-row classifier, a
    response that contains a token is stored as its first token, lowercased;
    a response without a token is stored as the trimmed response text (the
    text returned by [call_openai], which is trimmed already, as it is).  The
    two closing runs, both with [--sheet Sheet1], show a cell that receives a
    text outside the labels allowed for its row: once through the fallback
    of the batch script, once through the single-row classifier. *)
Theorem C10_cleanup_stores_raw_text {World : Type}
    (responses_create : string -> string -> World -> outcome OpenAI.response * World)
    (wait_exponential : nat -> Q) :
  (∀ model t parsed st out2 st1,
     Dict.mem (Batch.ridx_of t) parsed = false →
     Batch.call_openai responses_create (Fallback.prompt_of t) model st
     = (Return out2, st1) →
     Batch.fallback_one responses_create model t parsed st
     = (Return (Dict.set (Batch.ridx_of t) (Spec.cleaned out2) parsed), st1))
  ∧ (∀ model idx df st r label st1,
       df !! idx = Some r → blank (colA r) = false →
       let text := Py.strip (Batch.cell_str (colA r)) in
       Single.call_openai_strict_label responses_create wait_exponential
         (Single.build_prompt text (Single.extract_labels_from_text text)) model st
       = (Return label, st1) →
       Single.row_body responses_create wait_exponential model idx df st
       = (Return (alter (set_colB (Spec.cleaned label)) idx df), st1))
  ∧ (∀ response tok rest,
       Re.findall response = tok :: rest → Spec.cleaned response = Py.lower tok)
  ∧ (∀ response,
       Re.findall response = [] → Spec.cleaned response = Py.strip response)
  ∧ (∀ response,
       Re.findall (Py.strip response) = [] →
       Spec.cleaned (Py.strip response) = Py.strip response)
  ∧ (∃ df' st',
       Batch.main Script.scripted "data.xlsx" (Some "Sheet1") Batch.DEFAULT_MODEL
         Batch.DEFAULT_BATCH Runs.open_frame (Script.start Runs.vague_replies)
       = (Return ("data_with_results.xlsx", df'), st')
       ∧ iat_B df' 0 = Val "Vet ikke."
       ∧ "Vet ikke." ∉ Batch.extract_labels "ans0 eller ans1?")
  ∧ (∃ df' st',
       Single.main Script.scripted Runs.exponential "data.xlsx" (Some "Sheet1")
         "gpt-5" Runs.open_frame (Script.start [Script.says " Vet ikke. "])
       = (Return ("data_with_results.xlsx", df'), st')
       ∧ iat_B df' 0 = Val "Vet ikke."
       ∧ "Vet ikke." ∉ Single.extract_labels_from_text "ans0 eller ans1?").
Proof.
  split; [apply fallback_one_returned|]. split; [apply row_body_returned|].
  split; [by intros response tok rest; unfold Spec.cleaned; intros ->|].
  split; [by intros response; unfold Spec.cleaned; intros ->|].
  split; [intros response; unfold Spec.cleaned; intros ->; apply strip_idem|].
  assert (Hout : ∀ l : list string, l = ["ans0"; "ans1"] → "Vet ikke." ∉ l).
  { intros l -> Hin. apply (proj1 (list_elem_of_In _ _)) in Hin. simpl in Hin.
    destruct Hin as [H|[H|[]]]; discriminate H. }
  split.
  - eexists _, _. split; [vm_compute; reflexivity|].
    split; [vm_compute; reflexivity|]. apply Hout. vm_compute. reflexivity.
  - eexists _, _. split; [vm_compute; reflexivity|].
    split; [vm_compute; reflexivity|]. apply Hout. vm_compute. reflexivity.
Qed.

Lemma C10_cleanup_stores_raw_text_witness :
  Batch.fallback_one Script.scripted "gpt-4.1" (0, "ans0 eller ans1?", ["ans0"; "ans1"])
    [] (Script.start [Script.says " Vet ikke. "])
  = (Return [(0, "Vet ikke.")],
     {| world := [];
        trace := [Call "gpt-4.1"
                    (Batch.single_prompt "ans0 eller ans1?" ["ans0"; "ans1"])] |})
  ∧ Single.row_body Script.scripted Runs.exponential "gpt-5" 0 Runs.open_frame
      (Script.start [Script.says "Svaret er ANS7, tror jeg."])
    = (Return [ {| colA := Val "ans0 eller ans1?"; colB := Val "ans7" |} ],
       {| world := [];
          trace := [Call "gpt-5"
                      (Single.build_prompt "ans0 eller ans1?" ["ans0"; "ans1"])] |})
  ∧ Spec.cleaned "Svaret er ANS7, tror jeg." = "ans7"
  ∧ Spec.cleaned " Vet ikke. " = "Vet ikke."
  ∧ Spec.cleaned "Vet ikke." = "Vet ikke.".
Proof.
  pose proof (C10_cleanup_stores_raw_text Script.scripted Runs.exponential)
    as (Hbatch & Hsingle & Htoken & Hnone & Htrim & _).
  split.
  { exact (Hbatch "gpt-4.1" (0, "ans0 eller ans1?", ["ans0"; "ans1"]) []
             (Script.start [Script.says " Vet ikke. "]) "Vet ikke."
             {| world := [];
                trace := [Call "gpt-4.1"
                            (Batch.single_prompt "ans0 eller ans1?" ["ans0"; "ans1"])] |}
             eq_refl eq_refl). }
  split.
  { exact (Hsingle "gpt-5" 0 Runs.open_frame
             (Script.start [Script.says "Svaret er ANS7, tror jeg."])
             {| colA := Val "ans0 eller ans1?"; colB := Val "" |}
             "Svaret er ANS7, tror jeg."
             {| world := [];
                trace := [Call "gpt-5"
                            (Single.build_prompt "ans0 eller ans1?" ["ans0"; "ans1"])] |}
             eq_refl eq_refl eq_refl). }
  split.
  { exact (Htoken "Svaret er ANS7, tror jeg." "ANS7" [] eq_refl). }
  split; [exact (Hnone " Vet ikke. " eq_refl)|].
  exact (Htrim " Vet ikke. " eq_refl).
Defined.

(** ** Retry wrapper of the Gemini script *)

Section RetryWrapper.
Context {World : Type}.
Variable generate_content :
  string -> string -> World -> outcome Gemini.response * World.
Variable uniform : World -> Q * World.

Abbreviation attempt_once := (Gemini.attempt_once generate_content uniform).
Abbreviation retry_loop := (Gemini.retry_loop generate_content uniform).
Abbreviation call_gemini_safe := (Gemini.call_gemini_safe generate_content uniform).




(** A failed request, as seen by the [except] branch. *)
Lemma generate_raises prompt model st e w1 :
  generate_content model prompt (world st) = (Raise e, w1) →
  Gemini.generate generate_content prompt model st
  = (Raise e, {| world := w1; trace := trace st ++ [Call model prompt] |}).
Proof.
  intros Hgc. unfold Gemini.generate, bind, request. by rewrite Hgc.
Qed.










End RetryWrapper.


(** ** Error routing *)

Section SingleWrapper.
Context {World : Type}.
Variable responses_create :
  string -> string -> World -> outcome OpenAI.response * World.
Variable wait_exponential : nat -> Q.






End SingleWrapper.










(** * Further properties of the scripts *)

(** ** Batches *)

Section Chunks.
Context {A : Type}.

(** The chunks of [xs] that start at the multiples [0, k, ..., (m-1) k]. *)
Lemma chunks_step (k m : nat) (xs : list A) :
  map (λ i, take k (drop i xs)) (map (λ j, j * k) (seq 0 (S m)))
  = take k xs
    :: map (λ i, take k (drop i (drop k xs))) (map (λ j, j * k) (seq 0 m)).
Proof.
  cbn [seq map]. rewrite <- List.seq_shift. f_equal.
  rewrite !List.map_map. apply List.map_ext. intros j.
  rewrite drop_drop. by do 2 f_equal.
Qed.

Lemma chunks_cover (k m : nat) (xs : list A) :
  0 < k → length xs ≤ m * k → (m = 0 ∨ (m - 1) * k < length xs) →
  let chunks := map (λ i, take k (drop i xs)) (map (λ j, j * k) (seq 0 m)) in
  concat chunks = xs
  ∧ Forall (λ c, 0 < length c ∧ length c ≤ k) chunks
  ∧ (∀ i c, chunks !! i = Some c → S i < length chunks → length c = k).
Proof.
  intros Hk. revert xs. induction m as [|m IH]; intros xs Hle Hgt.
  - simpl. destruct xs; [|simpl in Hle; lia].
    split; [done|]. split; [constructor|]. by intros i c.
  - cbn zeta. rewrite chunks_step.
    destruct (IH (drop k xs)) as (Hcat & Hall & Hfull).
    { rewrite length_drop. lia. }
    { destruct m as [|m]; [by left|right]. rewrite length_drop.
      destruct Hgt as [?|Hgt]; [lia|]. simpl in *. lia. }
    split; [|split].
    + cbn [concat]. rewrite Hcat. apply take_drop.
    + constructor; [|exact Hall]. rewrite length_take.
      destruct Hgt as [?|Hgt]; [lia|]. split; [|lia].
      destruct xs; simpl in *; lia.
    + intros [|i] c; simpl.
      * intros [= <-] Hi. rewrite length_take.
        rewrite !length_map, length_seq in Hi.
        destruct m as [|m]; [lia|]. destruct Hgt as [?|Hgt]; [lia|].
        simpl in Hgt. lia.
      * intros Hc Hi. apply (Hfull i c Hc). lia.
Qed.

Lemma ceil_bounds (n k : nat) :
  0 < k →
  n ≤ (n + k - 1) / k * k
  ∧ ((n + k - 1) / k = 0 ∨ ((n + k - 1) / k - 1) * k < n).
Proof.
  intros Hk.
  pose proof (Nat.div_mod_eq (n + k - 1) k) as Hdm.
  pose proof (Nat.mod_upper_bound (n + k - 1) k ltac:(lia)) as Hr.
  split; [nia|].
  destruct ((n + k - 1) / k) as [|q]; [by left|right]. nia.
Qed.

(** X1.  [chunked] with a positive size cuts the list into consecutive chunks:
    nothing is lost or repeated, no chunk is empty or longer than the size,
    and only the last chunk can be shorter. *)
Theorem chunked_partition (xs : list A) (size : Z) :
  (0 < size)%Z →
  ∃ chunks,
    Batch.chunked xs size = Some chunks
    ∧ concat chunks = xs
    ∧ Forall (λ c, 0 < length c ∧ length c ≤ Z.to_nat size) chunks
    ∧ (∀ i c, chunks !! i = Some c → S i < length chunks →
         length c = Z.to_nat size)
    ∧ length chunks = (length xs + Z.to_nat size - 1) / Z.to_nat size.
Proof.
  intros Hsize. destruct size as [|p|p]; try lia.
  unfold Batch.chunked, Batch.range0. eexists. split; [reflexivity|].
  replace (Z.to_nat (Z.pos p)) with (Pos.to_nat p) by lia.
  assert (Hk : 0 < Pos.to_nat p) by lia.
  destruct (ceil_bounds (length xs) (Pos.to_nat p) Hk) as [Hle Hgt].
  destruct (chunks_cover (Pos.to_nat p) _ xs Hk Hle Hgt) as (H1 & H2 & H3).
  split; [exact H1|]. split; [exact H2|]. split; [exact H3|].
  by rewrite !length_map, length_seq.
Qed.

End Chunks.

Lemma chunked_partition_witness :
  ∃ chunks, Batch.chunked [1; 2; 3; 4; 5] 2 = Some chunks
            ∧ concat chunks = [1; 2; 3; 4; 5].
Proof.
  destruct (chunked_partition [1; 2; 3; 4; 5] 2 ltac:(lia))
    as (chunks & Heq & Hcat & _).
  exists chunks. split; [exact Heq|exact Hcat].
Defined.

(** ** Task collection *)

Section Tasks.
Import Py.

Abbreviation ids := (map Batch.ridx_of).

Lemma task_of_index df i val t :
  Batch.task_of df i val = Some t → Batch.ridx_of t = i.
Proof.
  unfold Batch.task_of. destruct (blank val); [done|].
  destruct (negb _); [done|]. by intros [= <-].
Qed.

(** The tasks drawn from rows [k, k+1, ...] come in row order. *)
Lemma tasks_sorted_from (df l : list row) (k : nat) :
  let ts := omap (λ p : nat * row, Batch.task_of df p.1 (colA p.2))
              (imap (λ i r, (k + i, r)) l) in
  StronglySorted lt (ids ts) ∧ Forall (λ i, k ≤ i) (ids ts).
Proof.
  revert k. induction l as [|r l IH]; intros k; cbn zeta.
  - split; constructor.
  - rewrite imap_cons.
    rewrite (imap_ext _ (λ i r, (S k + i, r))) by (intros; simpl; f_equal; lia).
    destruct (IH (S k)) as [Hs Hb]. cbn [omap list_omap fst snd].
    destruct (Batch.task_of df (k + 0) (colA r)) as [t|] eqn:Ht.
    + apply task_of_index in Ht. cbn [map]. rewrite Ht. split.
      * constructor; [exact Hs|]. eapply Forall_impl; [exact Hb|].
        intros i Hi. simpl in Hi. lia.
      * constructor; [lia|]. eapply Forall_impl; [exact Hb|].
        intros i Hi. simpl in Hi. lia.
    + split; [exact Hs|]. eapply Forall_impl; [exact Hb|].
      intros i Hi. simpl in Hi. lia.
Qed.

Lemma not_blank_text (s : string) :
  blank (Val s) = false → strip s ≠ "".
Proof. simpl. by destruct (strip s). Qed.

(** X2.  The task-collection loop: the tasks are the rows that have input and
    no output, in row order and each once; the text of a task is the trimmed
    input, never empty, and its labels are those extracted from that text. *)
Theorem collect_tasks_rows (df : table) :
  StronglySorted lt (ids (Batch.collect_tasks df))
  ∧ (∀ i, i ∈ ids (Batch.collect_tasks df)
          ↔ ∃ r, df !! i = Some r ∧ ¬ skipped r)
  ∧ (∀ idx text labels,
       (idx, text, labels) ∈ Batch.collect_tasks df →
       text ≠ "" ∧ strip text = text ∧ labels = Batch.extract_labels text
       ∧ ∃ r s, df !! idx = Some r ∧ colA r = Val s ∧ text = strip s).
Proof.
  split; [apply (tasks_sorted_from df df 0)|]. split.
  - intros i. split.
    + intros Hi. apply list_elem_of_fmap in Hi as ([[idx text] labels] & -> & Hin).
      destruct (batch_task_rows df idx text labels Hin) as (r & Hr & Hns & _).
      by exists r.
    + intros (r & Hr & Hns).
      assert (HA : blank (colA r) = false).
      { destruct (blank (colA r)) eqn:E; [|done]. destruct Hns. by left. }
      assert (HB : blank (colB r) = true).
      { destruct (blank (colB r)) eqn:E; [done|]. destruct Hns. by right. }
      apply list_elem_of_fmap.
      exists (i, strip (Batch.cell_str (colA r)),
              Batch.extract_labels (strip (Batch.cell_str (colA r)))).
      split; [done|]. unfold Batch.collect_tasks. apply list_elem_of_omap.
      exists (i, r). split.
      * apply list_elem_of_lookup. exists i. by rewrite list_lookup_imap, Hr.
      * simpl. unfold Batch.task_of, iat_B. by rewrite Hr, HA, HB.
  - intros idx text labels Hin.
    destruct (batch_task_rows df idx text labels Hin) as (r & Hr & Hns & -> & ->).
    assert (HA : blank (colA r) = false).
    { destruct (blank (colA r)) eqn:E; [|done]. destruct Hns. by left. }
    destruct (colA r) as [|s] eqn:Hs; [done|]. simpl.
    split; [by apply not_blank_text|]. split; [apply strip_idem|].
    split; [done|]. by exists r, s.
Qed.

End Tasks.

Lemma collect_tasks_rows_witness :
  0 ∈ map Batch.ridx_of (Batch.collect_tasks Runs.resumed_frame)
  ∧ ("Is it ans0 or ans1?" ≠ ""
     ∧ Py.strip "Is it ans0 or ans1?" = "Is it ans0 or ans1?").
Proof.
  pose proof (collect_tasks_rows Runs.resumed_frame) as (_ & Hin & Htask).
  split.
  - apply (proj2 (Hin 0)).
    exists {| colA := Val "Is it ans0 or ans1?"; colB := NaN |}.
    split; [reflexivity|]. intros [H|H]; discriminate H.
  - destruct (Htask 0 "Is it ans0 or ans1?" ["ans0"; "ans1"]) as (H1 & H2 & _).
    + apply (proj2 (list_elem_of_In _ _)). simpl. left. reflexivity.
    + split; [exact H1|exact H2].
Defined.

(** ** The batch script: write-back and failures *)

Section BatchRun.
Context {World : Type}.
Variable responses_create :
  string -> string -> World -> outcome OpenAI.response * World.

Abbreviation write_all := (for_each (Batch.write_one (World := World))).

Lemma alter_colA (v : string) (i : nat) (df : table) :
  colA <$> alter (set_colB v) i df = colA <$> df.
Proof.
  revert i. induction df as [|r df IH]; intros [|i]; simpl; try done.
  f_equal. apply IH.
Qed.

Lemma write_one_in_range (k : nat) (v : string) (df : table) (st : state World) :
  k < length df →
  Batch.write_one (k, v) df st = (Return (alter (set_colB v) k df), st).
Proof.
  intros Hk. unfold Batch.write_one, iat_set. simpl.
  by destruct (Nat.ltb_spec k (length df)); [|lia].
Qed.

Lemma write_one_out_of_range (k : nat) (v : string) (df : table) (st : state World) :
  length df ≤ k →
  Batch.write_one (k, v) df st = (Raise (Exception "index is out of bounds"), st).
Proof.
  intros Hk. unfold Batch.write_one, iat_set. simpl.
  by destruct (Nat.ltb_spec k (length df)); [lia|].
Qed.

(** X3.  The write-back loop when every identifier is a row of the frame: it
    returns, touches the state of the run in no way, keeps the number of
    rows and column A, leaves every row that is not named as it is, and puts
    into column B of each named row the label stored for it. *)
Theorem write_back_in_range (results : Dict.t) (df : table) (st : state World) :
  (∀ k, k ∈ Dict.keys results → k < length df) →
  ∃ df',
    write_all results df st = (Return df', st)
    ∧ length df' = length df
    ∧ colA <$> df' = colA <$> df
    ∧ (∀ i, i ∉ Dict.keys results → df' !! i = df !! i)
    ∧ (NoDup (Dict.keys results) →
       ∀ k v, Dict.get k results = Some v → iat_B df' k = Val v).
Proof.
  revert df. induction results as [|[k v] results IH]; intros df Hin.
  - exists df. repeat split; try done.
  - cbn [for_each]. unfold bind.
    rewrite write_one_in_range by (apply Hin; by left).
    destruct (IH (alter (set_colB v) k df)) as (df' & Hrun & Hlen & HA & Hout & Hval).
    { intros k' Hk'. rewrite length_alter. apply Hin. by right. }
    exists df'. split; [exact Hrun|].
    split; [by rewrite Hlen, length_alter|].
    split; [by rewrite HA, alter_colA|]. split.
    + intros i Hi. simpl in Hi. apply not_elem_of_cons in Hi as [Hne Hi].
      rewrite Hout by done. by apply list_lookup_alter_ne.
    + intros Hnd k' v'. simpl in Hnd. apply NoDup_cons in Hnd as [Hfresh Hnd].
      simpl. destruct (Nat.eqb_spec k' k) as [->|Hne].
      * intros [= <-]. unfold iat_B. rewrite Hout by done.
        rewrite list_lookup_alter_eq.
        destruct (lookup_lt_is_Some_2 df k) as [r ->]; [apply Hin; by left|].
        done.
      * by apply Hval.
Qed.

(** The write-back loop when some identifier is not a row of the frame:
    [df.iat] raises, and the loop ends with that error. *)
Lemma write_all_out_of_range (results : Dict.t) (df : table) (st : state World) :
  (∃ k, k ∈ Dict.keys results ∧ length df ≤ k) →
  write_all results df st = (Raise (Exception "index is out of bounds"), st).
Proof.
  revert df. induction results as [|[k v] results IH]; intros df (k0 & Hin & Hk0).
  - by apply elem_of_nil in Hin.
  - cbn [for_each]. unfold bind.
    destruct (Nat.lt_ge_cases k (length df)) as [Hlt|Hge].
    + rewrite write_one_in_range by done. apply IH.
      exists k0. rewrite length_alter. split; [|done].
      simpl in Hin. apply elem_of_cons in Hin as [->|Hin]; [lia|done].
    + by rewrite write_one_out_of_range.
Qed.

Lemma for_each_app {A S} (body : A → S → M World S) (xs ys : list A)
    (s : S) (st : state World) :
  for_each body (xs ++ ys) s st
  = match for_each body xs s st with
    | (Return s', st') => for_each body ys s' st'
    | (Raise e, st') => (Raise e, st')
    end.
Proof.
  revert s st. induction xs as [|x xs IH]; intros s st; [done|].
  cbn [app for_each]. unfold bind.
  destruct (body x s st) as [[s'|e] st']; [apply IH|done].
Qed.

(** X4.  A response that names a row beyond the frame ends the script with an
    IndexError: the batch is not written, later batches are not sent and no
    file is saved, whatever the earlier batches have produced and whatever
    the [--sheet] option. *)
Theorem batch_out_of_range_aborts excel_path sheet model batch_size df st
    before batch after df1 st1 results st2 :
  Batch.chunked (Batch.collect_tasks df) batch_size = Some (before ++ batch :: after) →
  for_each (Batch.process_batch responses_create model) before df st
  = (Return df1, st1) →
  Batch.classify_batch responses_create batch model st1 = (Return results, st2) →
  (∃ k, k ∈ Dict.keys results ∧ length df1 ≤ k) →
  Batch.main responses_create excel_path sheet model batch_size df st
  = (Raise (Exception "index is out of bounds"), st2).
Proof.
  intros Hchunks Hbefore Hclassify Hout.
  unfold Batch.main. rewrite Hchunks. unfold bind at 1.
  rewrite for_each_app, Hbefore. cbn [for_each]. unfold bind at 1.
  unfold Batch.process_batch at 1. unfold bind at 1. rewrite Hclassify.
  unfold bind at 1. by rewrite write_all_out_of_range.
Qed.

(** A request that fails. *)
Lemma call_openai_raises prompt model st e w1 :
  responses_create model prompt (world st) = (Raise e, w1) →
  Batch.call_openai responses_create prompt model st
  = (Raise e, {| world := w1; trace := trace st ++ [Call model prompt] |}).
Proof.
  intros Hrc. unfold Batch.call_openai, bind, request. by rewrite Hrc.
Qed.

Lemma forallb_elem {A} (f : A → bool) (l : list A) :
  (∀ x, x ∈ l → f x = true) → forallb f l = true.
Proof.
  induction l as [|a l IH]; intros H; [done|]. simpl.
  rewrite H by (by left). apply IH. intros x Hx. apply H. by right.
Qed.

Lemma classify_batch_raises batch model st e w1 :
  responses_create model (Batch.build_batch_prompt batch) (world st)
  = (Raise e, w1) →
  Batch.classify_batch responses_create batch model st
  = (Raise e,
     {| world := w1;
        trace := trace st ++ [Call model (Batch.build_batch_prompt batch)] |}).
Proof.
  intros Hrc. unfold Batch.classify_batch, bind.
  by rewrite (call_openai_raises _ _ _ _ _ Hrc).
Qed.

(** X5.  [classify_batch] without fallback.  When the combined request raises,
    the error leaves [classify_batch] as it is, after that one request and
    without any single-row request.  When the response names every row of
    the batch, the parsed dictionary is returned as it is, identifiers that
    are not rows of the batch included, and no further request is made.
    When the parser raises on the response, that error leaves
    [classify_batch] too, without any single-row request. *)
Theorem classify_batch_no_fallback batch model st :
  (∀ e w1,
     responses_create model (Batch.build_batch_prompt batch) (world st)
     = (Raise e, w1) →
     Batch.classify_batch responses_create batch model st
     = (Raise e,
        {| world := w1;
           trace := trace st ++ [Call model (Batch.build_batch_prompt batch)] |}))
  ∧ (∀ out st1 parsed,
       Batch.call_openai responses_create (Batch.build_batch_prompt batch) model st
       = (Return out, st1) →
       Batch.parse_batch_output out = Return parsed →
       (∀ t, t ∈ batch → Batch.ridx_of t ∈ Dict.keys parsed) →
       Batch.classify_batch responses_create batch model st
       = (Return parsed, st1)
       ∧ trace st1 = trace st ++ [Call model (Batch.build_batch_prompt batch)])
  ∧ (∀ out st1 e,
       Batch.call_openai responses_create (Batch.build_batch_prompt batch) model st
       = (Return out, st1) →
       Batch.parse_batch_output out = Raise e →
       Batch.classify_batch responses_create batch model st = (Raise e, st1)
       ∧ trace st1 = trace st ++ [Call model (Batch.build_batch_prompt batch)]).
Proof.
  assert (Htrace : ∀ out st1,
    Batch.call_openai responses_create (Batch.build_batch_prompt batch) model st
    = (Return out, st1) →
    trace st1 = trace st ++ [Call model (Batch.build_batch_prompt batch)]).
  { intros out st1 Hcall.
    unfold Batch.call_openai, bind, request, ret in Hcall.
    destruct (responses_create _ _ _) as [[resp|e] w]; [|done].
    by injection Hcall as _ <-. }
  split; [|split].
  - intros e w1 Hrc. by apply classify_batch_raises.
  - intros out st1 parsed Hcall Hparse Hall. split; [|by eapply Htrace].
    unfold Batch.classify_batch, bind. rewrite Hcall. unfold lift.
    rewrite Hparse. rewrite forallb_elem; [done|].
    intros t Ht. by apply dict_mem_keys, Hall.
  - intros out st1 e Hcall Hparse. split; [|by eapply Htrace].
    unfold Batch.classify_batch, bind. rewrite Hcall. unfold lift.
    by rewrite Hparse.
Qed.

(** X6.  A batch whose combined request fails ends the script with that error:
    nothing is saved, also not the labels of the batches before it, whatever
    the [--sheet] option. *)
Theorem batch_request_failure_aborts excel_path sheet model batch_size df st
    before batch after df1 st1 e w2 :
  Batch.chunked (Batch.collect_tasks df) batch_size = Some (before ++ batch :: after) →
  for_each (Batch.process_batch responses_create model) before df st
  = (Return df1, st1) →
  responses_create model (Batch.build_batch_prompt batch) (world st1)
  = (Raise e, w2) →
  Batch.main responses_create excel_path sheet model batch_size df st
  = (Raise e,
     {| world := w2;
        trace := trace st1 ++ [Call model (Batch.build_batch_prompt batch)] |}).
Proof.
  intros Hchunks Hbefore Hrc.
  unfold Batch.main. rewrite Hchunks. unfold bind at 1.
  rewrite for_each_app, Hbefore. cbn [for_each]. unfold bind at 1.
  unfold Batch.process_batch at 1. unfold bind at 1.
  by rewrite (classify_batch_raises batch model st1 e w2 Hrc).
Qed.

End BatchRun.

Lemma write_back_in_range_witness :
  ∃ df', for_each Batch.write_one [(0, "ans1")] Runs.open_frame (Script.start tt)
         = (Return df', Script.start tt)
         ∧ iat_B df' 0 = Val "ans1".
Proof.
  destruct (write_back_in_range [(0, "ans1")] Runs.open_frame (Script.start tt))
    as (df' & Hrun & _ & _ & _ & Hval).
  - intros k Hk. apply (proj1 (list_elem_of_In _ _)) in Hk. simpl in Hk.
    destruct Hk as [<-|[]]. simpl. lia.
  - exists df'. split; [exact Hrun|].
    apply Hval; [|reflexivity]. apply NoDup_singleton.
Defined.

Lemma batch_out_of_range_aborts_witness :
  ∃ st2,
    Batch.main Script.scripted "data.xlsx" None Batch.DEFAULT_MODEL
      Batch.DEFAULT_BATCH Runs.open_frame (Script.start More.echo_reply)
    = (Raise (Exception "index is out of bounds"), st2).
Proof.
  eexists.
  eapply (batch_out_of_range_aborts Script.scripted "data.xlsx" None
            Batch.DEFAULT_MODEL Batch.DEFAULT_BATCH Runs.open_frame
            (Script.start More.echo_reply)
            [] (Batch.collect_tasks Runs.open_frame) []
            Runs.open_frame (Script.start More.echo_reply)
            [(0, "ans1"); (12, "ans1")]).
  - reflexivity.
  - reflexivity.
  - vm_compute. reflexivity.
  - exists 12. split; [|simpl; lia].
    apply (proj2 (list_elem_of_In _ _)). simpl. tauto.
Defined.

Lemma classify_batch_no_fallback_witness :
  Batch.classify_batch Script.scripted (Batch.collect_tasks Runs.open_frame)
    Batch.DEFAULT_MODEL (Script.start More.failing_reply)
  = (Raise (Exception "401 Unauthorized"),
     {| world := [];
        trace := [Call Batch.DEFAULT_MODEL
                    (Batch.build_batch_prompt (Batch.collect_tasks Runs.open_frame))] |})
  ∧ (Batch.classify_batch Script.scripted (Batch.collect_tasks Runs.open_frame)
       Batch.DEFAULT_MODEL (Script.start More.complete_reply)).1
    = Return [(0, "ans1")].
Proof.
  split.
  - exact (proj1 (classify_batch_no_fallback Script.scripted
                    (Batch.collect_tasks Runs.open_frame) Batch.DEFAULT_MODEL
                    (Script.start More.failing_reply))
             (Exception "401 Unauthorized") [] eq_refl).
  - destruct (proj1 (proj2 (classify_batch_no_fallback Script.scripted
                       (Batch.collect_tasks Runs.open_frame) Batch.DEFAULT_MODEL
                       (Script.start More.complete_reply)))
                "ID=0 ans1"
                {| world := [];
                   trace := [Call Batch.DEFAULT_MODEL
                               (Batch.build_batch_prompt
                                  (Batch.collect_tasks Runs.open_frame))] |}
                [(0, "ans1")] eq_refl eq_refl) as [Hrun _].
    + intros t Ht. apply (proj1 (list_elem_of_In _ _)) in Ht. simpl in Ht.
      destruct Ht as [<-|[]]. apply (proj2 (list_elem_of_In _ _)). simpl. tauto.
    + by rewrite Hrun.
Defined.

Lemma batch_request_failure_aborts_witness :
  Batch.main Script.scripted "data.xlsx" None Batch.DEFAULT_MODEL
    Batch.DEFAULT_BATCH Runs.open_frame (Script.start More.failing_reply)
  = (Raise (Exception "401 Unauthorized"),
     {| world := [];
        trace := [Call Batch.DEFAULT_MODEL
                    (Batch.build_batch_prompt (Batch.collect_tasks Runs.open_frame))] |}).
Proof.
  exact (batch_request_failure_aborts Script.scripted "data.xlsx" None
           Batch.DEFAULT_MODEL Batch.DEFAULT_BATCH Runs.open_frame
           (Script.start More.failing_reply)
           [] (Batch.collect_tasks Runs.open_frame) []
           Runs.open_frame (Script.start More.failing_reply)
           (Exception "401 Unauthorized") [] eq_refl eq_refl eq_refl).
Defined.

(** ** Labels and response lines *)

Section LabelShape.
Import Py Spec.

Lemma lower_digit c : is_digit c = true → lower_char c = c.
Proof. destruct c as [[] [] [] [] [] [] [] []]; vm_compute; congruence. Qed.

Lemma lower_digits ds : all_chars is_digit ds = true → lower ds = ds.
Proof.
  induction ds as [|c ds IH]; [done|]. cbn [all_chars lower].
  intros [Hc Hds]%andb_prop. by rewrite lower_digit, IH.
Qed.

Lemma lower_char_idem c : lower_char (lower_char c) = lower_char c.
Proof. destruct c as [[] [] [] [] [] [] [] []]; vm_compute; congruence. Qed.

(** The lowercase form of a token is a token, and lowercase already. *)
Lemma token_lower tok : token tok → token (lower tok) ∧ lower (lower tok) = lower tok.
Proof.
  intros (a & n & z & ds & -> & Hans & Hne & Hds).
  cbn [lower] in *. injection Hans as Ha Hn Hz.
  rewrite (lower_digits ds Hds). split.
  - exists (lower_char a), (lower_char n), (lower_char z), ds.
    split; [done|]. split; [|done]. cbn [lower].
    by rewrite !lower_char_idem, Ha, Hn, Hz.
  - by rewrite !lower_char_idem, (lower_digits ds Hds).
Qed.

Lemma findall_go_tokens (s : string) (skip : nat) (prev : option ascii) :
  Forall token (Re.findall_go skip prev s).
Proof.
  revert skip prev. induction s as [|c s IH]; intros skip prev; [constructor|].
  cbn [Re.findall_go]. destruct skip as [|k]; [|apply IH].
  destruct (Re.label_at prev (String c s)) as [[tok rest]|] eqn:Hm; [|apply IH].
  constructor; [|apply IH].
  unfold Re.label_at in Hm. destruct (Re.boundary_before prev); [|done].
  destruct (Re.ans_digits (String c s)) as [[tok' rest']|] eqn:Ha; [|done].
  destruct (Re.boundary_after rest'); [|done]. injection Hm as <- <-.
  by apply ans_digits_split in Ha as (_ & Htok & _).
Qed.

(** X7.  The labels offered to the model, for a text of the characters
    0..255: the list is never empty, each label has the form [ans<digits>],
    in lowercase, and the two scripts extract the same list.  (Texts with
    characters beyond 255 are outside this statement: there [re.IGNORECASE]
    also lets U+017F stand for [s].) *)
Theorem extract_labels_shape (text : string) :
  Batch.extract_labels text ≠ []
  ∧ Forall (λ lab, token lab ∧ lower lab = lab) (Batch.extract_labels text)
  ∧ Single.extract_labels_from_text text = Batch.extract_labels text.
Proof.
  assert (Hdefault : Forall (λ lab, token lab ∧ lower lab = lab)
                       ["ans0"; "ans1"; "ans2"]).
  { repeat constructor.
    - by exists "a"%char, "n"%char, "s"%char, "0".
    - by exists "a"%char, "n"%char, "s"%char, "1".
    - by exists "a"%char, "n"%char, "s"%char, "2". }
  assert (Hfound : Forall (λ lab, token lab ∧ lower lab = lab)
                     (first_seen (tokens text))).
  { apply Forall_forall. intros lab Hin. rewrite first_seen_elem in Hin.
    unfold tokens in Hin. apply list_elem_of_fmap in Hin as (tok & -> & Hin).
    pose proof (findall_go_tokens text 0 None) as Hall.
    rewrite Forall_forall in Hall. by apply token_lower, Hall. }
  split; [|split].
  - unfold Batch.extract_labels. by destruct (fold_left _ _ _).2.
  - unfold Batch.extract_labels. rewrite extract_ordered.
    by destruct (first_seen (tokens text)).
  - unfold Single.extract_labels_from_text, Batch.extract_labels.
    destruct (fold_left _ _ _).2; [done|]. by rewrite bool_decide_eq_false_2.
Qed.

End LabelShape.

Section RoundTrip.
Import Py Spec More.

Lemma digit_no_linebreak c : is_digit c = true → no_linebreak c = true.
Proof. destruct c as [[] [] [] [] [] [] [] []]; vm_compute; congruence. Qed.

Lemma letter_no_linebreak c : is_ascii_alpha (lower_char c) = true → no_linebreak c = true.
Proof. destruct c as [[] [] [] [] [] [] [] []]; vm_compute; congruence. Qed.

Lemma all_chars_app p a b :
  all_chars p (a +:+ b) = all_chars p a && all_chars p b.
Proof.
  induction a as [|c a IH]; [done|]. rewrite append_cons. cbn [all_chars].
  by rewrite IH, andb_assoc.
Qed.

Lemma all_chars_impl (p q : ascii → bool) s :
  (∀ c, p c = true → q c = true) → all_chars p s = true → all_chars q s = true.
Proof.
  intros Hpq. induction s as [|c s IH]; [done|]. cbn [all_chars].
  intros [Hc Hs]%andb_prop. by rewrite (Hpq c Hc), IH.
Qed.

(** Decimal digits written by [str] and read back by [int]. *)
Lemma int_go_of_uint (d : Decimal.uint) (acc : nat) :
  int_go acc (NilEmpty.string_of_uint d) = Nat.of_uint_acc d acc.
Proof.
  revert acc. induction d as [|d IH|d IH|d IH|d IH|d IH|d IH|d IH|d IH|d IH|d IH];
    intros acc; [done|..];
    cbn [NilEmpty.string_of_uint int_go Nat.of_uint_acc];
    rewrite IH, Nat.tail_mul_spec; f_equal; vm_compute digit_val; lia.
Qed.

Lemma integer_str_of_nat (n : nat) : integer (str_of_nat n) = n.
Proof.
  unfold integer, str_of_nat. rewrite int_go_of_uint.
  apply DecimalNat.Unsigned.of_to.
Qed.

Lemma string_of_uint_digits (d : Decimal.uint) :
  all_chars is_digit (NilEmpty.string_of_uint d) = true.
Proof. induction d; cbn [NilEmpty.string_of_uint all_chars]; by rewrite ?IHd. Qed.

Lemma str_of_nat_digits (n : nat) :
  str_of_nat n ≠ "" ∧ all_chars is_digit (str_of_nat n) = true.
Proof.
  split; [|apply string_of_uint_digits].
  unfold str_of_nat.
  assert (Hnn : Nat.to_uint n ≠ Decimal.Nil).
  { rewrite <- (DecimalNat.Unsigned.of_to n) at 1.
    rewrite DecimalNat.Unsigned.to_of. apply DecimalFacts.unorm_nonnil. }
  by destruct (Nat.to_uint n).
Qed.

Lemma token_no_linebreak tok : token tok → all_chars no_linebreak tok = true.
Proof.
  intros (a & n & z & ds & -> & Hans & _ & Hds).
  cbn [lower] in Hans. injection Hans as Ha Hn Hz. cbn [all_chars].
  rewrite !letter_no_linebreak by (by rewrite ?Ha, ?Hn, ?Hz).
  apply (all_chars_impl is_digit no_linebreak ds digit_no_linebreak Hds).
Qed.

(** A line in the requested format is accepted by the line pattern. *)
Lemma response_line_groups (p : nat * string) :
  token p.2 → Re.line_match (response_line p) = Some (str_of_nat p.1, p.2).
Proof.
  intros Htok. destruct (str_of_nat_digits p.1) as [Hne Hds].
  apply line_match_grammar.
  exists "", "I"%char, "D"%char, " ", "".
  split; [|repeat split; try done].
  unfold response_line. by rewrite append_nil_s.
Qed.

Lemma response_line_match (p : nat * string) :
  token p.2 → parsed_pair (response_line p) = Some (p.1, lower p.2).
Proof.
  intros Htok. unfold parsed_pair.
  by rewrite (response_line_groups p Htok), integer_str_of_nat.
Qed.

Lemma response_line_plain (p : nat * string) :
  token p.2 →
  response_line p ≠ "" ∧ all_chars no_linebreak (response_line p) = true.
Proof.
  intros Htok. split; [done|]. unfold response_line.
  destruct (str_of_nat_digits p.1) as [_ Hds].
  rewrite !all_chars_app, (token_no_linebreak _ Htok).
  by rewrite (all_chars_impl is_digit no_linebreak _ digit_no_linebreak Hds).
Qed.

(** Reading a stretch without line breaks only grows the current line. *)
Lemma splitlines_go_plain (l rest : string) (cur : list ascii) :
  all_chars no_linebreak l = true →
  splitlines_go cur (l +:+ rest)
  = splitlines_go (rev (list_ascii_of_string l) ++ cur) rest.
Proof.
  revert cur. induction l as [|c l IH]; intros cur Hl; [done|].
  cbn [all_chars] in Hl. apply andb_prop in Hl as [Hc Hl].
  rewrite append_cons. cbn [splitlines_go].
  unfold no_linebreak in Hc. apply negb_true_iff in Hc. rewrite Hc.
  rewrite IH by done. cbn [list_ascii_of_string rev].
  by rewrite <- app_assoc.
Qed.

Lemma rev_string_line (l : string) :
  rev_string (rev (list_ascii_of_string l) ++ []) = l.
Proof.
  unfold rev_string. rewrite app_nil_r, rev_involutive.
  apply string_of_list_ascii_of_string.
Qed.

(** Lines without line breaks, joined by newlines, are split back. *)
Lemma splitlines_join (lines : list string) :
  Forall (λ l, l ≠ "" ∧ all_chars no_linebreak l = true) lines →
  splitlines (join Batch.nl lines) = lines.
Proof.
  unfold splitlines. induction lines as [|l lines IH]; intros Hall; [done|].
  apply Forall_cons in Hall as [[Hne Hl] Hall].
  destruct lines as [|l' lines].
  - cbn [join]. rewrite <- (append_nil_s l) at 1.
    rewrite splitlines_go_plain by done. cbn [splitlines_go].
    destruct (rev (list_ascii_of_string l) ++ []) eqn:E.
    + destruct l as [|c l]; [done|]. cbn [list_ascii_of_string rev] in E.
      by destruct (rev (list_ascii_of_string l)).
    + by rewrite <- E, rev_string_line.
  - change (join Batch.nl (l :: l' :: lines))
      with (l +:+ Batch.nl +:+ join Batch.nl (l' :: lines)).
    rewrite splitlines_go_plain by done.
    unfold Batch.nl at 1. rewrite append_cons.
    change ("" +:+ join Batch.nl (l' :: lines)) with (join Batch.nl (l' :: lines)).
    cbn [splitlines_go].
    change (is_linebreak (ascii_of_nat 10)) with true. cbn iota.
    rewrite rev_string_line.
    destruct (join Batch.nl (l' :: lines)) as [|c2 r2] eqn:Hj.
    + apply Forall_cons in Hall as [[Hne' _] _].
      destruct l' as [|c l']; [done|]. destruct lines; discriminate Hj.
    + change ((code (ascii_of_nat 10) =? 13) && (code c2 =? 10)) with false.
      cbn iota. f_equal. by apply IH.
Qed.

Lemma store_fresh (pairs d : list (nat * string)) :
  NoDup (Dict.keys d ++ Dict.keys pairs) →
  fold_left store pairs d = d ++ pairs.
Proof.
  revert d. induction pairs as [|[k v] pairs IH]; intros d Hnd.
  - by rewrite app_nil_r.
  - cbn [fold_left]. unfold store at 2. cbn [fst snd].
    assert (Hset : Dict.set k v d = d ++ [(k, v)]).
    { assert (Hk : k ∉ Dict.keys d).
      { apply NoDup_app in Hnd as (_ & Hdisj & _). intros Hk.
        apply (Hdisj k Hk). by left. }
      clear -Hk. induction d as [|[k' v'] d IHd]; [done|]. simpl.
      simpl in Hk. apply not_elem_of_cons in Hk as [Hne Hk].
      destruct (Nat.eqb_spec k k'); [done|]. by rewrite IHd. }
    rewrite Hset, IH.
    + by rewrite <- app_assoc.
    + unfold Dict.keys in *. rewrite map_app. simpl.
      by rewrite <- app_assoc.
Qed.

(** X8.  A response that follows the format asked for, one line
    [ID=<id> <label>] per row with distinct identifiers of at most 4300
    digits, is parsed back into exactly these identifiers and labels
    (lowercased), in the same order. *)
Theorem parse_formatted_response (pairs : list (nat * string)) :
  NoDup (map fst pairs) →
  (∀ p, p ∈ pairs → token p.2 ∧ within_limit (str_of_nat p.1)) →
  Batch.parse_batch_output (join Batch.nl (map response_line pairs))
  = Return (map (λ p, (p.1, lower p.2)) pairs).
Proof.
  intros Hnd Hpairs. unfold Batch.parse_batch_output.
  rewrite splitlines_join.
  2:{ apply Forall_forall. intros l Hl.
      apply list_elem_of_fmap in Hl as (p & -> & Hp).
      by apply response_line_plain, Hpairs. }
  assert (Hgroups : omap Re.line_match (map response_line pairs)
                    = map (λ p, (str_of_nat p.1, p.2)) pairs).
  { clear Hnd. induction pairs as [|p pairs IH]; [done|].
    cbn [map omap list_omap].
    rewrite response_line_groups by (apply Hpairs; by left).
    f_equal. apply IH. intros q Hq. apply Hpairs. by right. }
  rewrite parse_lines_pairs.
  2:{ rewrite Hgroups. apply Forall_forall. intros g Hg.
      apply list_elem_of_fmap in Hg as (p & -> & Hp). by apply Hpairs. }
  rewrite matched_pairs_groups, Hgroups, List.map_map. cbn [fst snd].
  assert (Hread : map (λ p : nat * string, (integer (str_of_nat p.1), lower p.2)) pairs
                  = map (λ p, (p.1, lower p.2)) pairs).
  { apply List.map_ext. intros p. by rewrite integer_str_of_nat. }
  rewrite Hread, store_fresh; [done|]. simpl.
  unfold Dict.keys. by rewrite List.map_map.
Qed.

End RoundTrip.

Lemma parse_formatted_response_witness :
  Batch.parse_batch_output
    (Py.join Batch.nl (map More.response_line [(12, "ans1"); (3, "ANS0")]))
  = Return [(12, "ans1"); (3, "ans0")].
Proof.
  apply (parse_formatted_response [(12, "ans1"); (3, "ANS0")]).
  - apply (proj2 (NoDup_ListNoDup _)). repeat constructor; simpl; intuition lia.
  - intros p Hp. apply (proj1 (list_elem_of_In _ _)) in Hp. simpl in Hp.
    destruct Hp as [<-|[<-|[]]].
    + split; [by exists "a"%char, "n"%char, "s"%char, "1"|].
      unfold Spec.within_limit. vm_compute. discriminate.
    + split; [by exists "A"%char, "N"%char, "S"%char, "0"|].
      unfold Spec.within_limit. vm_compute. discriminate.
Defined.

(** ** Reading a response of the OpenAI client *)

Section ReadingResponses.
Context {World : Type}.
Variable responses_create :
  string -> string -> World -> outcome OpenAI.response * World.


(** X10.  A batch size that is not positive.  A size of zero ends the script
    with the ValueError of [range] before any request and before the save,
    whatever the [--sheet] option.  A negative size sends no request, also
    when rows are waiting for a label: with a sheet name given the frame is
    saved as it was loaded, and without one the run ends with the IndexError
    of the save. *)
Theorem batch_size_edges excel_path sheet model batch_size df st :
  (batch_size = 0%Z →
   Batch.main responses_create excel_path sheet model batch_size df st
   = (Raise (Exception "range() arg 3 must not be zero"), st))
  ∧ ((batch_size < 0)%Z →
     Batch.main responses_create excel_path sheet model batch_size df st
     = (match sheet with
        | Some _ => Return (Batch.out_path excel_path, df)
        | None => Raise (Exception "list index out of range")
        end, st)).
Proof.
  split.
  - by intros ->.
  - intros Hneg. destruct batch_size as [|p|p]; try lia.
    by destruct sheet.
Qed.

End ReadingResponses.


Lemma batch_size_edges_witness :
  Batch.main Script.scripted "data.xlsx" None Batch.DEFAULT_MODEL 0
    Runs.open_frame (Script.start More.complete_reply)
  = (Raise (Exception "range() arg 3 must not be zero"),
     Script.start More.complete_reply)
  ∧ Batch.main Script.scripted "data.xlsx" (Some "Sheet1") Batch.DEFAULT_MODEL
      (-3) Runs.open_frame (Script.start More.complete_reply)
    = (Return ("data_with_results.xlsx", Runs.open_frame),
       Script.start More.complete_reply).
Proof.
  split.
  - exact (proj1 (batch_size_edges Script.scripted "data.xlsx" None
                    Batch.DEFAULT_MODEL 0%Z Runs.open_frame
                    (Script.start More.complete_reply)) eq_refl).
  - exact (proj2 (batch_size_edges Script.scripted "data.xlsx" (Some "Sheet1")
                    Batch.DEFAULT_MODEL (-3)%Z Runs.open_frame
                    (Script.start More.complete_reply)) eq_refl).
Defined.

(** ** The Gemini script: what a call returns and costs *)

Section GeminiCalls.
Context {World : Type}.
Variable generate_content :
  string -> string -> World -> outcome Gemini.response * World.
Variable uniform : World -> Q * World.
Import Py.

Abbreviation generate := (Gemini.generate generate_content).
Abbreviation attempt_once := (Gemini.attempt_once generate_content uniform).
Abbreviation retry_loop := (Gemini.retry_loop generate_content uniform).
Abbreviation call_gemini_safe := (Gemini.call_gemini_safe generate_content uniform).

(** A request that is answered. *)
Lemma generate_returns prompt model st resp w :
  generate_content model prompt (world st) = (Return resp, w) →
  ∃ r,
    generate prompt model st
    = (Return r, {| world := w; trace := trace st ++ [Call model prompt] |})
    ∧ strip r = r
    ∧ (∀ t, Gemini.text resp = Some t → t ≠ "" → r = strip t)
    ∧ (Gemini.text resp = None ∨ Gemini.text resp = Some "" →
       r ≠ ""
       ∧ (r = strip (join "" (Gemini.parts resp)) ∨ r = "(empty response)")).
Proof.
  intros Hgc. unfold Gemini.generate, bind, request, ret. rewrite Hgc.
  set (joined := strip (join "" (Gemini.parts resp))).
  assert (Hfb : ∀ fb, fb = (if truthy joined then joined else "(empty response)") →
                strip fb = fb ∧ fb ≠ "" ∧ (fb = joined ∨ fb = "(empty response)")).
  { intros fb ->. destruct joined as [|c j] eqn:Hj; simpl; [by auto|].
    split; [|by auto]. rewrite <- Hj. apply strip_idem. }
  destruct (Gemini.text resp) as [t|] eqn:Ht.
  - eexists. split; [reflexivity|]. destruct t as [|c t].
    + simpl. destruct (Hfb _ eq_refl) as (H1 & H2 & H3).
      split; [exact H1|]. split; [by intros t' [= <-]|]. by intros _.
    + simpl. split; [apply strip_idem|]. split; [by intros t' [= <-]|].
      by intros [?|?].
  - eexists. split; [reflexivity|]. destruct (Hfb _ eq_refl) as (H1 & H2 & H3).
    split; [exact H1|]. split; [done|]. by intros _.
Qed.

(** The effects of one pass through the loop body, whatever the remote
    does. *)
Lemma attempt_once_effects prompt model attempt st :
  ∃ new, trace (attempt_once prompt model attempt st).2 = trace st ++ new
         ∧ More.one_attempt model prompt new.
Proof.
  unfold Gemini.attempt_once, try_except, bind.
  unfold Gemini.generate at 1. unfold bind, request, ret.
  destruct (generate_content model prompt (world st)) as [[resp|e] w].
  - exists [Call model prompt]. split; [|by left].
    by destruct (Gemini.text resp).
  - cbn [fst snd]. destruct (is_Exception e); [|by exists [Call model prompt]; split; [|left]].
    destruct (Gemini.rate_limited _).
    + unfold Gemini.random_uniform, sleep. cbn [world trace].
      destruct (uniform w) as [j w2].
      destruct (Qle_bool 0 (Gemini.backoff attempt j)) eqn:Hd.
      * eexists [Call model prompt; Sleep (Gemini.backoff attempt j)].
        split; [unfold emit, ret; simpl; by rewrite <- app_assoc|].
        right. eexists. split; [done|]. split; [by apply Qle_bool_iff|].
        unfold Gemini.backoff. apply Q.le_min_r.
      * exists [Call model prompt]. split; [done|by left].
    + exists [Call model prompt]. split; [|by left].
      by destruct (Gemini.safety_blocked _).
Qed.

Lemma one_attempt_calls model prompt new :
  More.one_attempt model prompt new → length (calls new) = 1.
Proof. by intros [->|(d & -> & _)]. Qed.

(** X11.  The requests and sleeps of the wrapper are bounded, whatever the remote
    does: never more requests than configured attempts, all for the same
    prompt, and never a sleep of more than 30 seconds.  Without any attempt
    configured the wrapper returns the too-many-retries string at once. *)
Theorem gemini_request_bound prompt model retries st :
  ∃ new,
    trace (call_gemini_safe prompt model retries st).2 = trace st ++ new
    ∧ length (calls new) ≤ Z.to_nat retries
    ∧ Forall (More.within_bounds model prompt) new
    ∧ ((retries <= 0)%Z →
       call_gemini_safe prompt model retries st
       = (Return Gemini.too_many_retries, st)).
Proof.
  unfold Gemini.call_gemini_safe.
  assert (Hloop : ∀ attempts st,
    ∃ new, trace (retry_loop prompt model attempts st).2 = trace st ++ new
           ∧ length (calls new) ≤ length attempts
           ∧ Forall (More.within_bounds model prompt) new).
  { clear st. intros attempts. induction attempts as [|k attempts IH]; intros st.
    - exists []. split; [by rewrite app_nil_r|]. split; [done|constructor].
    - cbn [Gemini.retry_loop]. unfold bind.
      destruct (attempt_once_effects prompt model k st) as (new1 & Ht1 & H1).
      assert (Hall1 : Forall (More.within_bounds model prompt) new1).
      { destruct H1 as [->|(d & -> & Hd0 & Hd30)]; repeat constructor; done. }
      destruct (attempt_once prompt model k st) as [[[a|]|e] st1]; cbn [snd] in Ht1.
      + exists new1. split; [done|]. split; [|done].
        rewrite (one_attempt_calls _ _ _ H1). simpl. lia.
      + destruct (IH st1) as (new2 & Ht2 & Hlen2 & Hall2).
        exists (new1 ++ new2). split; [by rewrite Ht2, Ht1, app_assoc|]. split.
        * unfold calls in *. rewrite filter_app, length_app.
          pose proof (one_attempt_calls _ _ _ H1) as Hc. unfold calls in Hc.
          rewrite Hc. simpl. lia.
        * by apply Forall_app.
      + exists new1. split; [done|]. split; [|done].
        rewrite (one_attempt_calls _ _ _ H1). simpl. lia. }
  destruct (Hloop (seq 0 (Z.to_nat retries)) st) as (new & Ht & Hlen & Hall).
  exists new. split; [exact Ht|]. split; [by rewrite length_seq in Hlen|].
  split; [exact Hall|]. intros Hle.
  replace (Z.to_nat retries) with 0 by lia. done.
Qed.



End GeminiCalls.

Lemma gemini_request_bound_witness :
  Gemini.call_gemini_safe Script.scripted Runs.half "hi" Gemini.DEFAULT_MODEL 0
    (Script.start Runs.quota_then_answer)
  = (Return Gemini.too_many_retries, Script.start Runs.quota_then_answer).
Proof.
  destruct (gemini_request_bound Script.scripted Runs.half "hi"
              Gemini.DEFAULT_MODEL 0%Z (Script.start Runs.quota_then_answer))
    as (new & _ & _ & _ & Hzero).
  apply Hzero. lia.
Defined.


(** ** The Gemini script: the rows of a run *)

Section GeminiRun.
Context {World : Type}.
Variable generate_content :
  string -> string -> World -> outcome Gemini.response * World.
Variable uniform : World -> Q * World.
Import Py.

Abbreviation attempt_once := (Gemini.attempt_once generate_content uniform).
Abbreviation retry_loop := (Gemini.retry_loop generate_content uniform).
Abbreviation call_gemini_safe := (Gemini.call_gemini_safe generate_content uniform).
Abbreviation rows_loop := (Gemini.rows_loop generate_content uniform).
Abbreviation main := (Gemini.main generate_content uniform).

(** How one pass through the loop body can end: with a trimmed answer, with
    [continue], or with an exception; [KeyboardInterrupt] only when the
    request itself raised it. *)
Lemma attempt_once_outcome prompt model k st :
  match (attempt_once prompt model k st).1 with
  | Return (Gemini.Done a) => strip a = a
  | Return Gemini.Continue => True
  | Raise e =>
      is_Exception e = false →
      (generate_content model prompt (world st)).1 = Raise e
  end.
Proof.
  destruct (generate_content model prompt (world st)) as [[resp|e] w] eqn:Hgc.
  - destruct (generate_returns generate_content prompt model st resp w Hgc)
      as (r & Hgen & Htrim & _).
    unfold Gemini.attempt_once, try_except, bind. by rewrite Hgen.
  - unfold Gemini.attempt_once, try_except, bind.
    rewrite (generate_raises _ _ _ _ _ _ Hgc).
    destruct (is_Exception e) eqn:He; [|done].
    destruct (Gemini.rate_limited _).
    + unfold Gemini.random_uniform, sleep. cbn [world trace].
      destruct (uniform w) as [j w2]. by destruct (Qle_bool _ _).
    + destruct (Gemini.safety_blocked _); cbn; [done|]. by rewrite He.
Qed.

Lemma call_outcome prompt model retries st :
  match (call_gemini_safe prompt model retries st).1 with
  | Return a => strip a = a
  | Raise e =>
      is_Exception e = false →
      ∃ w, (generate_content model prompt w).1 = Raise e
  end.
Proof.
  unfold Gemini.call_gemini_safe. generalize (seq 0 (Z.to_nat retries)).
  intros attempts. revert st.
  induction attempts as [|k attempts IH]; intros st; [done|].
  cbn [Gemini.retry_loop]. unfold bind.
  pose proof (attempt_once_outcome prompt model k st) as H1.
  destruct (attempt_once prompt model k st) as [[[a|]|e] st1]; cbn [fst] in *.
  - done.
  - apply IH.
  - intros He. eexists. by apply H1.
Qed.

Lemma strip_nonempty (c : ascii) (s : string) :
  is_space c = false → truthy (strip (String c s)) = true.
Proof.
  intros Hc. unfold strip. cbn [lstrip]. rewrite Hc. cbn [rstrip].
  destruct (rstrip s); [by rewrite Hc|done].
Qed.

(** What the loop writes is never blank. *)
Lemma gemini_value_not_blank (res : outcome string) :
  match res with Return a => strip a = a | Raise _ => True end →
  blank (Val (More.gemini_value res)) = false.
Proof.
  destruct res as [a|e]; cbn [More.gemini_value blank].
  - intros Ha. destruct a as [|c a]; [done|]. cbn [truthy]. by rewrite Ha.
  - intros _.
    change ("ERROR: " +:+ str_exn e) with (String "E" ("RROR: " +:+ str_exn e)).
    by rewrite strip_nonempty.
Qed.


(** The three ways through one iteration of the loop over the rows. *)
Lemma rows_loop_step a idx rest df processed st :
  (rows_loop a (idx :: rest) df processed st
   = rows_loop a rest df (processed + 1)%Z st
   ∧ ∀ r, df !! idx = Some r → skipped r)
  ∨ ∃ r res st1,
      df !! idx = Some r ∧ ¬ skipped r
      ∧ call_gemini_safe (strip (Gemini.cell_str (colA r))) (Gemini.model a) 6 st
        = (res, st1)
      ∧ ((res = Raise KeyboardInterrupt
          ∧ rows_loop a (idx :: rest) df processed st = ((df, None), st1))
         ∨ (res ≠ Raise KeyboardInterrupt
            ∧ rows_loop a (idx :: rest) df processed st
              = match Gemini.pacing a (processed + 1)%Z st1 with
                | (Return _, st2) =>
                    rows_loop a rest
                      (alter (set_colB (More.gemini_value res)) idx df)
                      (processed + 1)%Z st2
                | (Raise e, st2) =>
                    ((alter (set_colB (More.gemini_value res)) idx df, Some e), st2)
                end)).
Proof.
  cbn [Gemini.rows_loop]. unfold iat_B.
  destruct (df !! idx) as [r|] eqn:Hr; [|by left].
  destruct (blank (colA r)) eqn:HA.
  { left. split; [done|]. intros ? [= <-]. by left. }
  destruct (blank (colB r)) eqn:HB; cbn [negb].
  2:{ left. split; [done|]. intros ? [= <-]. by right. }
  right. exists r.
  destruct (call_gemini_safe _ _ _ _) as [res st1].
  exists res, st1. split; [done|]. split; [intros [?|?]; congruence|].
  split; [done|].
  destruct res as [answer|[m|m|]]; [right|right|right|left]; done.
Qed.

(** Every row of the frame that the loop leaves is the row it started with,
    or a row that was open and has now got a value that is not blank. *)
Lemma rows_loop_invariant a idxs df processed st :
  length (rows_loop a idxs df processed st).1.1 = length df
  ∧ ∀ i r, df !! i = Some r →
      (rows_loop a idxs df processed st).1.1 !! i = Some r
      ∨ (¬ skipped r
         ∧ ∃ v, (rows_loop a idxs df processed st).1.1 !! i = Some (set_colB v r)
                ∧ blank (Val v) = false).
Proof.
  revert df processed st.
  induction idxs as [|idx idxs IH]; intros df processed st; [by auto|].
  destruct (rows_loop_step a idx idxs df processed st)
    as [[-> _]|(r0 & res & st1 & Hr0 & Hopen & Hcall & [[_ ->]|[Hres ->]])].
  - apply IH.
  - by auto.
  - set (v := More.gemini_value res).
    assert (Hv : blank (Val v) = false).
    { apply gemini_value_not_blank.
      pose proof (call_outcome (strip (Gemini.cell_str (colA r0)))
                    (Gemini.model a) 6 st) as Hout.
      rewrite Hcall in Hout. by destruct res. }
    assert (Hthrough : ∀ df' : table,
      (length df' = length (alter (set_colB v) idx df)
       ∧ ∀ i r, alter (set_colB v) idx df !! i = Some r →
           df' !! i = Some r
           ∨ (¬ skipped r
              ∧ ∃ v', df' !! i = Some (set_colB v' r) ∧ blank (Val v') = false)) →
      length df' = length df
      ∧ ∀ i r, df !! i = Some r →
          df' !! i = Some r
          ∨ (¬ skipped r
             ∧ ∃ v', df' !! i = Some (set_colB v' r) ∧ blank (Val v') = false)).
    { intros df' [Hlen Hrows]. split; [by rewrite Hlen, length_alter|].
      intros i r Hr. destruct (decide (i = idx)) as [->|Hne].
      - assert (r = r0) as -> by congruence.
        assert (Hnew : alter (set_colB v) idx df !! idx = Some (set_colB v r0))
          by (by rewrite list_lookup_alter_eq, Hr0).
        destruct (Hrows idx (set_colB v r0) Hnew) as [H|[Hns _]].
        + right. split; [done|]. by exists v.
        + exfalso. apply Hns. by right.
      - apply Hrows. by rewrite list_lookup_alter_ne. }
    destruct (Gemini.pacing a (processed + 1)%Z st1) as [[[]|e] st2].
    + apply Hthrough, IH.
    + apply Hthrough. by auto.
Qed.

(** X13.  The frame that the [finally] block hands to the writer, whatever
    the remote does and however the run ends: it has the rows of the loaded
    frame, a row that had no input or had an answer is as loaded, and any
    row that differs was open and has now a value that is not blank in
    column B, with column A as loaded. *)
Theorem gemini_saved_frame a df st :
  Gemini.path (main a df st).1 = Gemini.out_path (Gemini.excel_path a)
  ∧ length (Gemini.frame (main a df st).1) = length df
  ∧ ∀ i r, df !! i = Some r →
      Gemini.frame (main a df st).1 !! i = Some r
      ∨ (¬ skipped r
         ∧ ∃ v, Gemini.frame (main a df st).1 !! i = Some (set_colB v r)
                ∧ blank (Val v) = false).
Proof.
  unfold Gemini.main.
  pose proof (rows_loop_invariant a (seq 0 (length df)) df 0 st) as Hinv.
  destruct (rows_loop a (seq 0 (length df)) df 0 st) as [[df' e] st'].
  unfold Gemini.finish. destruct (to_excel (Gemini.sheet a)).
  - split; [done|]. exact Hinv.
  - split; [done|]. exact Hinv.
Qed.



(** Rows that are passed over at the head of the loop. *)
Lemma rows_loop_skip_prefix a xs ys df processed st :
  (∀ i, i ∈ xs → ∃ r, df !! i = Some r ∧ skipped r) →
  rows_loop a (xs ++ ys) df processed st
  = rows_loop a ys df (processed + Z.of_nat (length xs))%Z st.
Proof.
  revert processed. induction xs as [|x xs IH]; intros processed Hxs.
  { simpl. by rewrite Z.add_0_r. }
  destruct (Hxs x) as (r & Hr & Hs); [by left|].
  cbn [app]. rewrite (gemini_skip_step _ _ _ _ _ _ _ _ r) by done.
  rewrite IH by (intros i Hi; apply Hxs; by right).
  f_equal. cbn [length]. lia.
Qed.

(** X15.  Ctrl-C during the request of the first open row: the loop is left
    without a write and the rows after it get no request.  With a sheet name
    given, the frame is saved as it was loaded and no exception is left;
    without one, nothing is written and the run ends with the IndexError of
    the writer. *)
Theorem gemini_interrupt_saves a df st idx r w1 :
  (∀ i r', i < idx → df !! i = Some r' → skipped r') →
  df !! idx = Some r → ¬ skipped r →
  generate_content (Gemini.model a) (strip (Gemini.cell_str (colA r))) (world st)
  = (Raise KeyboardInterrupt, w1) →
  main a df st
  = (match Gemini.sheet a with
     | Some _ =>
         {| Gemini.path := Gemini.out_path (Gemini.excel_path a);
            Gemini.frame := df; Gemini.written := true;
            Gemini.uncaught := None |}
     | None =>
         {| Gemini.path := Gemini.out_path (Gemini.excel_path a);
            Gemini.frame := df; Gemini.written := false;
            Gemini.uncaught := Some (Exception "list index out of range") |}
     end,
     {| world := w1;
        trace := trace st
                 ++ [Call (Gemini.model a) (strip (Gemini.cell_str (colA r)))] |}).
Proof.
  intros Hbefore Hr Hopen Hgc. unfold Gemini.main.
  assert (Hlt : idx < length df) by (by eapply lookup_lt_Some).
  replace (length df) with (idx + S (length df - S idx)) at 1 by lia.
  rewrite seq_app. cbn [seq]. rewrite Nat.add_0_l.
  rewrite rows_loop_skip_prefix.
  2:{ intros i Hi. apply elem_of_seq in Hi.
      destruct (lookup_lt_is_Some_2 df i) as [r' Hr']; [lia|].
      exists r'. split; [done|]. apply (Hbefore i); [lia|done]. }
  cbn [Gemini.rows_loop]. unfold iat_B. rewrite Hr.
  destruct (blank (colA r)) eqn:HA; [exfalso; apply Hopen; by left|].
  destruct (blank (colB r)) eqn:HB; [|exfalso; apply Hopen; by right].
  cbn [negb]. unfold Gemini.call_gemini_safe.
  change (Z.to_nat 6) with 6. cbn [seq Gemini.retry_loop].
  unfold bind, Gemini.attempt_once, try_except, bind.
  rewrite (generate_raises _ _ _ _ _ _ Hgc). cbn [is_Exception].
  unfold Gemini.finish. by destruct (Gemini.sheet a).
Qed.

End GeminiRun.

(** ** The single-row script *)

Section SingleRun.
Context {World : Type}.
Variable responses_create :
  string -> string -> World -> outcome OpenAI.response * World.
Variable wait_exponential : nat -> Q.
Import Py.

Abbreviation strict_label_body := (Single.strict_label_body responses_create).
Abbreviation retrying := (Single.retrying wait_exponential).
Abbreviation call_openai_strict_label :=
  (Single.call_openai_strict_label responses_create wait_exponential).
Abbreviation row_body := (Single.row_body responses_create wait_exponential).

(** The function under the decorator makes one request, and raises
    [KeyboardInterrupt] only when the request did. *)
Lemma strict_label_body_outcome prompt model st :
  ∃ res w,
    strict_label_body prompt model st
    = (res, {| world := w; trace := trace st ++ [Call model prompt] |})
    ∧ ∀ e, res = Raise e → is_Exception e = false →
        (responses_create model prompt (world st)).1 = Raise e.
Proof.
  unfold Single.strict_label_body, try_except, bind, request.
  destruct (responses_create model prompt (world st)) as [[resp|e] w].
  - destruct (truthy _).
    + eexists _, _. split; [reflexivity|]. by intros e [=].
    + eexists _, _. split; [reflexivity|]. by intros e [= <-].
  - destruct (is_Exception e) eqn:He.
    + destruct (Single.is_transient _).
      * eexists _, _. split; [reflexivity|]. by intros e' [= <-].
      * eexists _, _. split; [reflexivity|]. intros e' [= <-]. congruence.
    + eexists _, _. split; [reflexivity|]. by intros e' [= <-].
Qed.

Lemma decorated_effects_more wait model prompt k n :
  1 ≤ n →
  Backoff.decorated_effects wait model prompt k (S n)
  = Call model prompt :: Sleep (wait k)
    :: Backoff.decorated_effects wait model prompt (S k) n.
Proof. destruct n; [lia|done]. Qed.

(** The effects of the decorated call, whatever the remote does. *)
Lemma retrying_effects prompt model more k st :
  ∃ n, 1 ≤ n ≤ S more
    ∧ trace (retrying (strict_label_body prompt model) k more st).2
      = trace st ++ Backoff.decorated_effects wait_exponential model prompt k n
    ∧ (∀ m, (retrying (strict_label_body prompt model) k more st).1
            = Raise (TransientOpenAIError m) → n = S more)
    ∧ (∀ e, (retrying (strict_label_body prompt model) k more st).1 = Raise e →
            is_Exception e = false →
            ∃ w, (responses_create model prompt w).1 = Raise e).
Proof.
  revert k st. induction more as [|more IH]; intros k st.
  - cbn [Single.retrying].
    destruct (strict_label_body_outcome prompt model st) as (res & w & -> & Hki).
    exists 1. split; [lia|].
    destruct res as [a|[m|m|]]; cbn [fst snd trace];
      (split; [done|]); (split; [done|]); intros e He Hne; eexists; by apply Hki.
  - cbn [Single.retrying].
    destruct (strict_label_body_outcome prompt model st) as (res & w & -> & Hki).
    destruct res as [a|[m|m|]].
    1,2,4: exists 1; split; [lia|]; cbn [fst snd trace];
      (split; [done|]); (split; [done|]); intros e He Hne; eexists; by apply Hki.
    unfold bind, emit. cbn [world trace].
    destruct (IH (S k) {| world := w;
                          trace := (trace st ++ [Call model prompt])
                                   ++ [Sleep (wait_exponential k)] |})
      as (n & Hn & Htrace & Hlast & Hint).
    exists (S n). split; [lia|]. split; [|split].
    + rewrite Htrace. cbn [trace]. rewrite decorated_effects_more by lia.
      by rewrite <- !app_assoc.
    + intros m' Hm'. f_equal. by eapply Hlast.
    + exact Hint.
Qed.

(** X16.  The decorated call makes between one and five requests, all for the same
    prompt, with a sleep of the decorator's length between two requests and
    none after the last; it gives up with a [TransientOpenAIError] only
    after the fifth. *)
Theorem single_request_bound prompt model st :
  ∃ n, 1 ≤ n ≤ 5
    ∧ trace (call_openai_strict_label prompt model st).2
      = trace st ++ Backoff.decorated_effects wait_exponential model prompt 1 n
    ∧ ∀ m, (call_openai_strict_label prompt model st).1
           = Raise (TransientOpenAIError m) → n = 5.
Proof.
  unfold Single.call_openai_strict_label.
  destruct (retrying_effects prompt model 4 1 st) as (n & Hn & Htrace & Hlast & _).
  exists n. split; [lia|]. split; [exact Htrace|exact Hlast].
Qed.

(** X17.  A response without any text is an error of the row, not a label, and it
    is not asked for again: one request, the cell gets the error text, and
    the loop sleeps for a second.  A response whose text consists of blanks
    is no error: the cell is left empty. *)
Theorem single_empty_response model idx df st r resp w1 :
  df !! idx = Some r → blank (colA r) = false →
  responses_create model (More.single_prompt_of r) (world st) = (Return resp, w1) →
  ((OpenAI.output_text resp = None ∨ OpenAI.output_text resp = Some "") →
   strip (join "" (OpenAI.pieces resp)) = "" →
   row_body model idx df st
   = (Return (alter (set_colB "ERROR: Empty response from model") idx df),
      {| world := w1;
         trace := trace st ++ [Call model (More.single_prompt_of r); Sleep 1] |}))
  ∧ (∀ o, OpenAI.output_text resp = Some o → o ≠ "" → strip o = "" →
     row_body model idx df st
     = (Return (alter (set_colB "") idx df),
        {| world := w1;
           trace := trace st ++ [Call model (More.single_prompt_of r)] |})).
Proof.
  intros Hr HA Hrc.
  assert (Hbody : row_body model idx df st
    = try_except
        (label <- call_openai_strict_label (More.single_prompt_of r) model ;;
         ret (alter (set_colB (Single.clean_label label)) idx df))
        (λ e, _ <- sleep 1 ;;
              ret (alter (set_colB ("ERROR: " +:+ str_exn e)) idx df)) st).
  { unfold Single.row_body. rewrite Hr, HA. reflexivity. }
  rewrite Hbody. clear Hbody.
  unfold try_except, bind, Single.call_openai_strict_label.
  cbn [Single.retrying].
  unfold Single.strict_label_body, try_except, bind, request. rewrite Hrc.
  split.
  - intros Hnone Hpieces.
    assert (Htext : match OpenAI.output_text resp with
                    | Some o => if truthy o then o
                                else strip (join "" (OpenAI.pieces resp))
                    | None => strip (join "" (OpenAI.pieces resp))
                    end = "").
    { destruct Hnone as [->| ->]; exact Hpieces. }
    assert (Hnt : Single.is_transient (lower "Empty response from model") = false)
      by (vm_compute; reflexivity).
    rewrite Htext. cbn [truthy]. unfold raise. cbn [is_Exception str_exn].
    rewrite Hnt. cbn [is_Exception str_exn]. unfold sleep, emit.
    change (Qle_bool 0 1) with true. cbn [world trace]. unfold ret.
    by rewrite <- app_assoc.
  - intros o Ho Hne Hblank. rewrite Ho.
    destruct o as [|c o]; [done|]. cbn [truthy]. unfold ret. cbn [fst snd].
    rewrite Hblank. reflexivity.
Qed.

(** One row of the loop, when the remote is never interrupted. *)
Lemma single_row_step model idx df st :
  More.never_interrupted responses_create →
  ∃ df1 st1 new,
    row_body model idx df st = (Return df1, st1)
    ∧ trace st1 = trace st ++ new
    ∧ ((df1 = df ∧ ∀ r, df !! idx = Some r → blank (colA r) = true)
       ∨ ∃ r v, df !! idx = Some r ∧ blank (colA r) = false
                ∧ df1 = alter (set_colB v) idx df
                ∧ Call model (More.single_prompt_of r) ∈ new).
Proof.
  intros Hnever. unfold Single.row_body.
  destruct (df !! idx) as [r|] eqn:Hr.
  2:{ exists df, st, []. split; [done|]. split; [by rewrite app_nil_r|].
      left. by split. }
  destruct (blank (colA r)) eqn:HA.
  { exists df, st, []. split; [done|]. split; [by rewrite app_nil_r|].
    left. split; [done|]. by intros ? [= <-]. }
  fold (More.single_prompt_of r).
  unfold try_except, bind, Single.call_openai_strict_label.
  destruct (retrying_effects (More.single_prompt_of r) model 4 1 st)
    as (n & Hn & Htrace & _ & Hint).
  assert (Hcall : Call model (More.single_prompt_of r)
                  ∈ Backoff.decorated_effects wait_exponential model
                      (More.single_prompt_of r) 1 n).
  { destruct n as [|[|n]]; [lia| |]; simpl; by left. }
  destruct (retrying _ 1 4 st) as [[label|e] st1]; cbn [fst snd] in *.
  - eexists _, st1, _. split; [reflexivity|]. split; [exact Htrace|].
    right. by exists r, (Single.clean_label label).
  - destruct (is_Exception e) eqn:He.
    + unfold sleep, emit, ret. cbn.
      eexists _, _, _. split; [reflexivity|]. cbn [trace]. split.
      * rewrite Htrace, <- app_assoc. reflexivity.
      * right. exists r, ("ERROR: " +:+ str_exn e).
        split; [done|]. split; [done|]. split; [done|].
        apply elem_of_app. by left.
    + exfalso. destruct (Hint e eq_refl He) as [w Hw].
      apply (Hnever model (More.single_prompt_of r) w). rewrite Hw.
      by destruct e.
Qed.

Lemma single_rows model idxs df st :
  More.never_interrupted responses_create →
  ∃ df' st' new,
    for_each (row_body model) idxs df st = (Return df', st')
    ∧ trace st' = trace st ++ new
    ∧ length df' = length df
    ∧ (∀ i r, df !! i = Some r →
         df' !! i = Some r
         ∨ (blank (colA r) = false ∧ ∃ v, df' !! i = Some (set_colB v r)))
    ∧ (∀ i r, i ∈ idxs → df !! i = Some r → blank (colA r) = false →
         (∃ v, df' !! i = Some (set_colB v r))
         ∧ Call model (More.single_prompt_of r) ∈ new).
Proof.
  intros Hnever. revert df st.
  induction idxs as [|idx idxs IH]; intros df st.
  { exists df, st, []. split; [done|]. split; [by rewrite app_nil_r|].
    split; [done|]. split; [by auto|]. intros i r Hi. by apply elem_of_nil in Hi. }
  cbn [for_each]. unfold bind.
  destruct (single_row_step model idx df st Hnever)
    as (df1 & st1 & new1 & -> & Ht1 & Hstep).
  destruct (IH df1 st1) as (df' & st' & new2 & -> & Ht2 & Hlen & Hrows & Hseen).
  exists df', st', (new1 ++ new2). split; [done|].
  split; [by rewrite Ht2, Ht1, app_assoc|].
  destruct Hstep as [[-> Hblank]|(r0 & v0 & Hr0 & HA0 & -> & Hcall0)].
  - split; [done|]. split; [done|].
    intros i r [->|Hi]%elem_of_cons Hr HA.
    + rewrite (Hblank r Hr) in HA. discriminate.
    + destruct (Hseen i r Hi Hr HA) as [Hv Hc]. split; [done|].
      apply elem_of_app. by right.
  - rewrite length_alter in Hlen. split; [done|].
    assert (Hrow : ∀ i r, df !! i = Some r →
      ∃ r1, alter (set_colB v0) idx df !! i = Some r1
            ∧ colA r1 = colA r
            ∧ (r1 = r ∨ (i = idx ∧ r1 = set_colB v0 r))).
    { intros i r Hr. destruct (decide (i = idx)) as [->|Hne].
      - exists (set_colB v0 r). rewrite list_lookup_alter_eq, Hr.
        split; [done|]. split; [done|]. by right.
      - exists r. rewrite list_lookup_alter_ne by done. by auto. }
    split.
    + intros i r Hr. destruct (Hrow i r Hr) as (r1 & Hr1 & HA1 & Hcase).
      destruct (Hrows i r1 Hr1) as [H|[HA (v & Hv)]].
      * destruct Hcase as [->|[-> ->]]; [by left|].
        right. split; [congruence|]. by exists v0.
      * right. split; [congruence|]. exists v. rewrite Hv.
        destruct Hcase as [->|[-> ->]]; done.
    + intros i r Hi Hr HA. destruct (Hrow i r Hr) as (r1 & Hr1 & HA1 & Hcase).
      assert (Hsame : ∀ v, set_colB v r1 = set_colB v r).
      { intros v. unfold set_colB. by rewrite HA1. }
      assert (Hprompt : More.single_prompt_of r1 = More.single_prompt_of r).
      { unfold More.single_prompt_of. by rewrite HA1. }
      apply elem_of_cons in Hi as [->|Hi].
      * assert (r = r0) as -> by congruence. split.
        -- destruct (Hrows idx r1 Hr1) as [H|[_ (v & Hv)]].
           ++ destruct Hcase as [->|[_ ->]]; [|by exists v0].
              rewrite list_lookup_alter_eq, Hr0 in Hr1.
              injection Hr1 as Hr1. exists v0. by rewrite H, <- Hr1.
           ++ exists v. by rewrite Hv, Hsame.
        -- apply elem_of_app. by left.
      * destruct (Hseen i r1 Hi Hr1) as [(v & Hv) Hc]; [congruence|].
        split; [exists v; by rewrite Hv, Hsame|].
        apply elem_of_app. right. by rewrite <- Hprompt.
Qed.

(** X18.  A run of the single-row script with a remote that is never
    interrupted.  The loop over the rows ends without an exception; in the
    frame that it hands to the writer, which has the rows of the loaded one,
    a row without input is as loaded, and every row with input has been sent
    to the model and has got a new value in column B, whether or not it had
    one: the script does not resume.  With a sheet name given the script
    then saves that frame and ends; without one the writer fails and the
    run ends with its IndexError, after all the requests. *)
Theorem single_main_rows excel_path sheet model df st :
  More.never_interrupted responses_create →
  ∃ df' st' new,
    Single.main responses_create wait_exponential excel_path sheet model df st
    = (match sheet with
       | Some _ => Return (Single.out_path excel_path, df')
       | None => Raise (Exception "list index out of range")
       end, st')
    ∧ trace st' = trace st ++ new
    ∧ length df' = length df
    ∧ ∀ i r, df !! i = Some r →
        if blank (colA r) then df' !! i = Some r
        else (∃ v, df' !! i = Some (set_colB v r))
             ∧ Call model (More.single_prompt_of r) ∈ new.
Proof.
  intros Hnever. unfold Single.main, bind.
  destruct (single_rows model (seq 0 (length df)) df st Hnever)
    as (df' & st' & new & -> & Ht & Hlen & Hrows & Hseen).
  exists df', st', new. split; [by destruct sheet|].
  split; [done|]. split; [done|].
  intros i r Hr. destruct (blank (colA r)) eqn:HA.
  - destruct (Hrows i r Hr) as [H|[HA' _]]; [done|congruence].
  - apply Hseen; [|done|done]. apply elem_of_seq.
    apply lookup_lt_Some in Hr. lia.
Qed.

End SingleRun.

(** ** Concrete runs of the Gemini script and of the single-row script *)


Lemma gemini_interrupt_saves_witness :
  Gemini.main Script.scripted Runs.half (Runs.gemini_args "data.xlsx")
    More.half_done_frame
    (Script.start [Raise KeyboardInterrupt; Script.answers "Stockholm"])
  = ({| Gemini.path := Gemini.out_path "data.xlsx";
        Gemini.frame := More.half_done_frame;
        Gemini.written := true;
        Gemini.uncaught := None |},
     {| world := [Script.answers "Stockholm"];
        trace := [Call Gemini.DEFAULT_MODEL "Capital of Sweden?"] |})
  ∧ Gemini.main Script.scripted Runs.half (More.gemini_default_args "data.xlsx")
      More.half_done_frame
      (Script.start [Raise KeyboardInterrupt; Script.answers "Stockholm"])
    = ({| Gemini.path := Gemini.out_path "data.xlsx";
          Gemini.frame := More.half_done_frame;
          Gemini.written := false;
          Gemini.uncaught := Some (Exception "list index out of range") |},
       {| world := [Script.answers "Stockholm"];
          trace := [Call Gemini.DEFAULT_MODEL "Capital of Sweden?"] |}).
Proof.
  split.
  - apply (gemini_interrupt_saves Script.scripted Runs.half
             (Runs.gemini_args "data.xlsx") More.half_done_frame
             (Script.start [Raise KeyboardInterrupt; Script.answers "Stockholm"])
             1 {| colA := Val " Capital of Sweden? "; colB := NaN |}
             [Script.answers "Stockholm"]).
    + intros i r' Hi Hr'. destruct i as [|i]; [|lia].
      injection Hr' as <-. right. reflexivity.
    + reflexivity.
    + intros [H|H]; vm_compute in H; discriminate H.
    + reflexivity.
  - apply (gemini_interrupt_saves Script.scripted Runs.half
             (More.gemini_default_args "data.xlsx") More.half_done_frame
             (Script.start [Raise KeyboardInterrupt; Script.answers "Stockholm"])
             1 {| colA := Val " Capital of Sweden? "; colB := NaN |}
             [Script.answers "Stockholm"]).
    + intros i r' Hi Hr'. destruct i as [|i]; [|lia].
      injection Hr' as <-. right. reflexivity.
    + reflexivity.
    + intros [H|H]; vm_compute in H; discriminate H.
    + reflexivity.
Defined.

Lemma single_empty_response_witness :
  Single.row_body Script.scripted Runs.exponential "gpt-5" 0 Runs.open_frame
    (Script.start [Return {| OpenAI.output_text := None; OpenAI.output := [] |}])
  = (Return (alter (set_colB "ERROR: Empty response from model") 0 Runs.open_frame),
     {| world := [];
        trace := [Call "gpt-5" (More.single_prompt_of
                                  {| colA := Val "ans0 eller ans1?"; colB := Val "" |});
                  Sleep 1] |}).
Proof.
  destruct (single_empty_response Script.scripted Runs.exponential "gpt-5" 0
              Runs.open_frame
              (Script.start [Return {| OpenAI.output_text := None; OpenAI.output := [] |}])
              {| colA := Val "ans0 eller ans1?"; colB := Val "" |}
              {| OpenAI.output_text := None; OpenAI.output := [] |} [])
    as [Hempty _].
  - reflexivity.
  - reflexivity.
  - reflexivity.
  - apply Hempty; [by left|reflexivity].
Defined.

Lemma single_main_rows_witness :
  ∃ df' st' new,
    Single.main Script.polite Runs.exponential "data.xlsx" (Some "Sheet1") "gpt-5"
      Runs.labelled_frame (Script.start [inl "ans0"; inl "ans0"])
    = (Return (Single.out_path "data.xlsx", df'), st')
    ∧ trace st' = new
    ∧ length df' = length Runs.labelled_frame
    ∧ ∀ i r, Runs.labelled_frame !! i = Some r →
        if blank (colA r) then df' !! i = Some r
        else (∃ v, df' !! i = Some (set_colB v r))
             ∧ Call "gpt-5" (More.single_prompt_of r) ∈ new.
Proof.
  apply (single_main_rows Script.polite Runs.exponential "data.xlsx"
           (Some "Sheet1") "gpt-5"
           Runs.labelled_frame (Script.start [inl "ans0"; inl "ans0"])).
  intros model prompt [|[s|m] w]; simpl; tauto.
Defined.

(** ** The batch script: what a saved frame can look like *)

Section BatchSaved.
Context {World : Type}.
Variable responses_create :
  string -> string -> World -> outcome OpenAI.response * World.

Lemma write_all_inputs (results : Dict.t) (df df' : table) (st st' : state World) :
  for_each (Batch.write_one (World := World)) results df st = (Return df', st') →
  colA <$> df' = colA <$> df.
Proof.
  revert df. induction results as [|[k v] results IH]; intros df.
  { by intros [= <- <-]. }
  cbn [for_each]. unfold bind, Batch.write_one, iat_set. cbn [fst snd].
  destruct (k <? length df); [|done].
  unfold ret. intros Hrun. rewrite (IH _ Hrun). apply alter_colA.
Qed.

Lemma process_batch_inputs model batch (df df' : table) (st st' : state World) :
  Batch.process_batch responses_create model batch df st = (Return df', st') →
  colA <$> df' = colA <$> df.
Proof.
  unfold Batch.process_batch, bind.
  destruct (Batch.classify_batch _ _ _ _) as [[results|e] st1]; [|done].
  destruct (for_each _ results df st1) as [[df1|e] st2] eqn:Hwrite; [|done].
  destruct (sleep _ st2) as [[[]|e] st3]; [|done].
  intros [= <- <-]. by eapply write_all_inputs.
Qed.

(** X19.  Whatever the remote answers, a frame that the batch script saves has
    the rows of the loaded frame with column A as loaded: only column B is
    ever written.  And the script saves only in a run that was given a sheet
    name. *)
Theorem batch_saved_inputs excel_path sheet model batch_size df st p df' st' :
  Batch.main responses_create excel_path sheet model batch_size df st
  = (Return (p, df'), st') →
  p = Batch.out_path excel_path
  ∧ length df' = length df
  ∧ colA <$> df' = colA <$> df
  ∧ ∃ name, sheet = Some name.
Proof.
  unfold Batch.main.
  destruct (Batch.chunked _ _) as [batches|]; [|done].
  unfold bind.
  destruct (for_each _ batches df st) as [[df1|e] st1] eqn:Hrun; [|done].
  unfold lift. destruct sheet as [name|]; [|done].
  intros [= <- <- <-]. split; [done|].
  assert (HA : colA <$> df1 = colA <$> df).
  { clear -Hrun. revert df st Hrun.
    induction batches as [|batch batches IH]; intros df st.
    { by intros [= <- <-]. }
    cbn [for_each]. unfold bind.
    destruct (Batch.process_batch _ _ batch df st) as [[df2|e] st2] eqn:Hstep;
      [|done].
    intros Hrest. rewrite (IH _ _ Hrest).
    by eapply process_batch_inputs. }
  split; [|split; [exact HA|by exists name]].
  by rewrite <- (length_fmap colA df1), HA, length_fmap.
Qed.

End BatchSaved.

Lemma batch_saved_inputs_witness :
  Batch.main Script.scripted "data.xlsx" (Some "Sheet1") Batch.DEFAULT_MODEL 25
    Runs.open_frame (Script.start More.complete_reply)
  = (Return ("data_with_results.xlsx", alter (set_colB "ans1") 0 Runs.open_frame),
     {| world := [];
        trace := [Call Batch.DEFAULT_MODEL
                    (Batch.build_batch_prompt (Batch.collect_tasks Runs.open_frame));
                  Sleep (3 # 10)] |})
  ∧ length (alter (set_colB "ans1") 0 Runs.open_frame) = length Runs.open_frame
  ∧ colA <$> alter (set_colB "ans1") 0 Runs.open_frame = colA <$> Runs.open_frame.
Proof.
  assert (Hrun :
    Batch.main Script.scripted "data.xlsx" (Some "Sheet1") Batch.DEFAULT_MODEL 25
      Runs.open_frame (Script.start More.complete_reply)
    = (Return ("data_with_results.xlsx",
               alter (set_colB "ans1") 0 Runs.open_frame),
       {| world := [];
          trace := [Call Batch.DEFAULT_MODEL
                      (Batch.build_batch_prompt
                         (Batch.collect_tasks Runs.open_frame));
                    Sleep (3 # 10)] |})) by (vm_compute; reflexivity).
  split; [exact Hrun|].
  destruct (batch_saved_inputs Script.scripted "data.xlsx" (Some "Sheet1")
              Batch.DEFAULT_MODEL 25
              Runs.open_frame (Script.start More.complete_reply) _ _ _ Hrun)
    as (_ & Hlen & HA & _).
  by split.
Defined.

(** ** The batch script with a remote that answers as asked *)

Section BatchAnswered.
Context {World : Type}.
Variable responses_create :
  string -> string -> World -> outcome OpenAI.response * World.
Import Py Spec.

Abbreviation ids := (map Batch.ridx_of).











End BatchAnswered.


(** ** Runs that end at the parser or at the writer *)

Section Endings.
Context {World : Type}.
Variable responses_create :
  string -> string -> World -> outcome OpenAI.response * World.
Variable generate_content :
  string -> string -> World -> outcome Gemini.response * World.
Variable uniform : World -> Q * World.
Variable wait_exponential : nat -> Q.

(** X21.  A response line with an identifier of more than 4300 digits ends the
    batch script: [int] raises a ValueError inside [parse_batch_output], which
    nothing catches.  No per-row request is made for the batch, its rows and
    those of the later batches get no label, and nothing is saved, also not
    the labels of the batches before it. *)
Theorem batch_long_identifier_aborts excel_path sheet model batch_size df st
    before batch after df1 st1 out st2 lines_before ds tok lines_after :
  Batch.chunked (Batch.collect_tasks df) batch_size = Some (before ++ batch :: after) →
  for_each (Batch.process_batch responses_create model) before df st
  = (Return df1, st1) →
  Batch.call_openai responses_create (Batch.build_batch_prompt batch) model st1
  = (Return out, st2) →
  Spec.matched_groups out = lines_before ++ (ds, tok) :: lines_after →
  Forall (λ g, Spec.within_limit g.1) lines_before →
  ¬ Spec.within_limit ds →
  Batch.main responses_create excel_path sheet model batch_size df st
  = (Raise (Exception (Py.int_limit_message (String.length ds))), st2).
Proof.
  intros Hchunks Hbefore Hcall Hgroups Hok Hbig.
  unfold Batch.main. rewrite Hchunks. unfold bind at 1.
  rewrite for_each_app, Hbefore. cbn [for_each]. unfold bind at 1.
  unfold Batch.process_batch at 1. unfold bind at 1.
  unfold Batch.classify_batch, bind. rewrite Hcall. unfold lift.
  unfold Batch.parse_batch_output.
  by rewrite (parse_lines_raises _ [] lines_before ds tok lines_after Hgroups Hok Hbig).
Qed.

(** X22.  Without the option [--sheet] no script saves anything.  The batch
    script and the single-row script never return: when their loop comes to
    its end, after all the requests, the run ends with the IndexError of
    [writer.book.sheetnames[0]].  The Gemini script reaches its [finally]
    block however the loop was left, writes nothing there and ends with the
    same IndexError, which replaces the exception that left the loop. *)
Theorem default_sheet_never_saves :
  (∀ excel_path model batch_size df st,
     (∀ result,
        (Batch.main responses_create excel_path None model batch_size df st).1
        ≠ Return result)
     ∧ ∀ batches df' st',
         Batch.chunked (Batch.collect_tasks df) batch_size = Some batches →
         for_each (Batch.process_batch responses_create model) batches df st
         = (Return df', st') →
         Batch.main responses_create excel_path None model batch_size df st
         = (Raise (Exception "list index out of range"), st'))
  ∧ (∀ excel_path model df st,
       (∀ result,
          (Single.main responses_create wait_exponential excel_path None model
             df st).1 ≠ Return result)
       ∧ ∀ df' st',
           for_each (Single.row_body responses_create wait_exponential model)
             (seq 0 (length df)) df st = (Return df', st') →
           Single.main responses_create wait_exponential excel_path None model
             df st
           = (Raise (Exception "list index out of range"), st'))
  ∧ (∀ a df st,
       Gemini.sheet a = None →
       Gemini.written (Gemini.main generate_content uniform a df st).1 = false
       ∧ Gemini.uncaught (Gemini.main generate_content uniform a df st).1
         = Some (Exception "list index out of range")).
Proof.
  split; [|split].
  - intros excel_path model batch_size df st. split.
    + intros result. unfold Batch.main.
      destruct (Batch.chunked _ _) as [batches|]; [|done].
      unfold bind. by destruct (for_each _ batches df st) as [[df'|e] st'].
    + intros batches df' st' Hchunks Hloop.
      unfold Batch.main. rewrite Hchunks. unfold bind. by rewrite Hloop.
  - intros excel_path model df st. split.
    + intros result. unfold Single.main, bind.
      by destruct (for_each _ _ df st) as [[df'|e] st'].
    + intros df' st' Hloop. unfold Single.main, bind. by rewrite Hloop.
  - intros a df st Hnone. unfold Gemini.main.
    destruct (Gemini.rows_loop _ _ _ _ _ _ _) as [[df' e] st'].
    unfold Gemini.finish. by rewrite Hnone.
Qed.

End Endings.

Lemma batch_long_identifier_aborts_witness :
  Batch.main Script.scripted "data.xlsx" (Some "Sheet1") Batch.DEFAULT_MODEL
    Batch.DEFAULT_BATCH Runs.open_frame (Script.start More.long_reply)
  = (Raise (Exception
              (Py.int_limit_message (String.length Runs.long_identifier))),
     {| world := [];
        trace := [Call Batch.DEFAULT_MODEL
                    (Batch.build_batch_prompt
                       (Batch.collect_tasks Runs.open_frame))] |}).
Proof.
  apply (batch_long_identifier_aborts Script.scripted "data.xlsx" (Some "Sheet1")
           Batch.DEFAULT_MODEL Batch.DEFAULT_BATCH Runs.open_frame
           (Script.start More.long_reply)
           [] (Batch.collect_tasks Runs.open_frame) []
           Runs.open_frame (Script.start More.long_reply)
           Runs.long_line
           {| world := [];
              trace := [Call Batch.DEFAULT_MODEL
                          (Batch.build_batch_prompt
                             (Batch.collect_tasks Runs.open_frame))] |}
           [] Runs.long_identifier "ans1" []).
  - reflexivity.
  - reflexivity.
  - vm_compute. reflexivity.
  - vm_compute. reflexivity.
  - constructor.
  - unfold Spec.within_limit. intros H. apply H. vm_compute. reflexivity.
Defined.

Lemma default_sheet_never_saves_witness :
  Batch.main Script.scripted "data.xlsx" None Batch.DEFAULT_MODEL 25
    Runs.open_frame (Script.start More.complete_reply)
  = (Raise (Exception "list index out of range"),
     {| world := [];
        trace := [Call Batch.DEFAULT_MODEL
                    (Batch.build_batch_prompt (Batch.collect_tasks Runs.open_frame));
                  Sleep (3 # 10)] |}).
Proof.
  apply (proj2 (proj1 (default_sheet_never_saves Script.scripted
                         (λ _ _ w, (Script.answers "", w)) Runs.half
                         Runs.exponential)
                  "data.xlsx" Batch.DEFAULT_MODEL 25%Z Runs.open_frame
                  (Script.start More.complete_reply))
           [Batch.collect_tasks Runs.open_frame]
           (alter (set_colB "ans1") 0 Runs.open_frame)).
  - reflexivity.
  - vm_compute. reflexivity.
Defined.
